(** * The calendar agent's tool loop (backend/langgraph_agent.py)

    A shallow embedding of the LangGraph agent of the calendar backend:
    the proxy tool [mcp_calendar_tool], the two graph nodes [run_llm] and
    [execute_tools], the router [should_continue], the compiled graph and
    the [/chat] endpoint, together with the [/mcp/call] dispatcher of
    backend/mcp_calendar_server.py that the proxy tool talks to.

    Python dictionaries with string keys are [gmap string _]; the effects
    of the code (exceptions, HTTP calls, the language model) are explicit:
    exceptions are the [Raise] outcome of a small error monad, and the
    collaborators are variables of the sections below.  Console logging
    ([print]) is not modelled. *)

From stdpp Require Import gmap strings list fin_maps pretty.

Local Open Scope Z_scope.
Local Open Scope string_scope.
Local Open Scope list_scope.

(** ** Python values *)

(** The JSON-like values that travel as tool arguments and tool outputs. *)
#[warnings="-register-all"] Inductive pyval : Type :=
  | VNone
  | VBool (b : bool)
  | VInt (z : Z)
  | VStr (s : string)
  | VList (l : list pyval)
  | VDict (d : gmap string pyval).

Abbreviation dict := (gmap string pyval).

(** Python truthiness, as used by [x or {}]. *)
Definition py_truthy (v : pyval) : bool :=
  match v with
  | VNone => false
  | VBool b => b
  | VInt z => negb (Z.eqb z 0)
  | VStr s => negb (String.eqb s EmptyString)
  | VList l => negb (Nat.eqb (length l) 0)
  | VDict d => negb (Nat.eqb (size d) 0)
  end.

(** ** Exceptions *)

(** The exception classes the code tells apart.  [Exception] stands for
    any other subclass of Python's [Exception]. *)
Inductive pyexn : Type :=
  | RequestException (msg : string)
  | IndexError (msg : string)
  | GraphRecursionError (msg : string)
  | Exception (msg : string).

(** [str(e)], as interpolated by the f-strings of the source. *)
Definition exn_str (e : pyexn) : string :=
  match e with
  | RequestException msg | IndexError msg
  | GraphRecursionError msg | Exception msg => msg
  end.

Inductive result (A : Type) : Type :=
  | Ok (a : A)
  | Raise (e : pyexn).
Arguments Ok {A} a.
Arguments Raise {A} e.

Global Instance result_ret : MRet result := λ A, Ok.
Global Instance result_bind : MBind result := λ A B f m,
  match m with
  | Ok a => f a
  | Raise e => Raise e
  end.

(** [messages[-1]]: the last element, [IndexError] on the empty list. *)
Definition list_last {A} (l : list A) : result A :=
  match last l with
  | Some x => Ok x
  | None => Raise (IndexError "list index out of range")
  end.

(** ** Argument normalisation (mcp_calendar_tool, step 1) *)

Definition normalize (kwargs : dict) : dict :=
  match kwargs !! "kwargs" with
  | Some (VDict inner) => inner
  | _ => kwargs
  end.

(** A mapping with exactly one key, bound to a mapping. *)
Definition single_key_wrapper (m : dict) : Prop :=
  ∃ (k : string) (inner : dict), m = {[ k := VDict inner ]}.

(** ** Name mapping (mcp_calendar_tool, step 2) *)

Definition TOOL_NAME_MAP : gmap string string :=
  list_to_map
    [ ("create_calendar_event_tool", "calendar_create_event");
      ("send_calendar_reminder_tool", "calendar_send_reminder");
      ("sync_google_calendar_tool", "calendar_sync_google");
      ("import_google_calendar_tool", "calendar_import_google");
      ("calendar_create_event", "calendar_create_event");
      ("calendar_send_reminder", "calendar_send_reminder");
      ("calendar_sync_google", "calendar_sync_google");
      ("calendar_import_google", "calendar_import_google") ].

(** [TOOL_NAME_MAP.get(tool_name, tool_name)] *)
Definition mcp_tool_id_of (tool_name : string) : string :=
  default tool_name (TOOL_NAME_MAP !! tool_name).

(** ** HTTP responses, as [requests] presents them *)

Record response : Type := Response {
  status_code : Z;
  text : string;
  json : option pyval   (* [None]: [resp.json()] raises [ValueError] *)
}.

(** [resp.ok]: false exactly for the 4xx and 5xx codes. *)
Definition resp_ok (r : response) : bool :=
  negb (Z.leb 400 (status_code r) && Z.ltb (status_code r) 600).

(** The failure payload every error path of the agent builds. *)
Definition failure (msg : string) : pyval :=
  VDict {[ "success" := VBool false; "error" := VStr msg ]}.

(** The JSON body posted to [/mcp/call]. *)
Definition call_body (mcp_tool_id : string) (params : dict) : pyval :=
  VDict {[ "tool" := VStr mcp_tool_id; "parameters" := VDict params ]}.

(** ** Conversation messages *)

(** A tool call as [execute_tools] reads it: [name], [args] and [id] may
    each be missing ([None]). *)
Record ToolCall : Type := mkToolCall {
  tc_name : option string;
  tc_args : option pyval;
  tc_id : option string
}.

(** The [tool_calls] attribute: a list, or a dict from ids to calls (kept
    in insertion order). *)
Inductive tool_calls_t : Type :=
  | CallsList (l : list ToolCall)
  | CallsDict (d : list (string * ToolCall)).

Inductive BaseMessage : Type :=
  | HumanMessage (content : string)
  | AIMessage (content : string) (tool_calls : tool_calls_t)
  | ToolMessage (content : pyval) (tool_call_id : option string).

(** [getattr(message, "tool_calls", None)] *)
Definition get_tool_calls (m : BaseMessage) : option tool_calls_t :=
  match m with
  | AIMessage _ tcs => Some tcs
  | _ => None
  end.

(** [list(tool_calls_raw.values())] or [list(tool_calls_raw)] *)
Definition calls_iterable (tcs : tool_calls_t) : list ToolCall :=
  match tcs with
  | CallsList l => l
  | CallsDict d => snd <$> d
  end.

(** Truthiness of [tool_calls_raw]: [None] and empty containers are falsy. *)
Definition calls_truthy (raw : option tool_calls_t) : bool :=
  match raw with
  | None => false
  | Some tcs => negb (Nat.eqb (length (calls_iterable tcs)) 0)
  end.

Definition is_tool_message (m : BaseMessage) : bool :=
  match m with
  | ToolMessage _ _ => true
  | _ => false
  end.

(** ** LangGraph state *)

Record AgentState : Type := mkState { messages : list BaseMessage }.

(** The reducer of the [messages] channel, [operator.add]: what a node
    returns is added onto what the state already holds. *)
Definition reducer (old update : AgentState) : AgentState :=
  {| messages := messages old ++ messages update |}.

(** ** The MCP server's dispatcher (backend/mcp_calendar_server.py) *)

Module McpServer.

(** What an endpoint function does: return a JSON value, raise an
    [HTTPException], or fail with some other exception. *)
Inductive endpoint_result : Type :=
  | Returns (data : pyval)
  | RaisesHTTP (status : Z) (detail : string)
  | Fails.

Section Dispatcher.
(** The four tool handlers.  They read and write the event store and
    call Google and SMTP; the dispatcher only passes [params] on. *)
Variables create_event_tool send_reminder_tool
          sync_google_tool import_google_tool : dict → endpoint_result.
(** The web framework's JSON serialiser. *)
Variable json_dumps : pyval → string.
(** The framework's answer (status 422) to a body that does not fit the
    request model. *)
Variable unprocessable : pyval → response.

Definition call_tool (tool : string) (params : dict) : endpoint_result :=
  if decide (tool = "calendar_create_event") then create_event_tool params
  else if decide (tool = "calendar_send_reminder") then send_reminder_tool params
  else if decide (tool = "calendar_sync_google") then sync_google_tool params
  else if decide (tool = "calendar_import_google") then import_google_tool params
  else RaisesHTTP 400 ("Unknown tool: " +:+ tool).

(** The HTTP response the framework builds from an endpoint result. *)
Definition render (r : endpoint_result) : response :=
  match r with
  | Returns data => Response 200 (json_dumps data) (Some data)
  | RaisesHTTP status detail =>
      let body := VDict {[ "detail" := VStr detail ]} in
      Response status (json_dumps body) (Some body)
  | Fails => Response 500 "Internal Server Error" None
  end.

(** [POST /mcp/call]: the body is validated against [MCPToolRequest]
    ([tool: str], [parameters: Dict[str, Any]]) and handed to
    [call_tool]. *)
Definition post_mcp_call (body : pyval) : response :=
  match body with
  | VDict b =>
      match b !! "tool", b !! "parameters" with
      | Some (VStr tool), Some (VDict params) => render (call_tool tool params)
      | _, _ => unprocessable body
      end
  | _ => unprocessable body
  end.
End Dispatcher.

End McpServer.

(** ** The agent (backend/langgraph_agent.py) *)

(** The Decision Provider: [(prompt | llm_with_tools).invoke], from the
    message history to the content and tool calls of the next
    [AIMessage], or an exception. *)
Definition LLM : Type := list BaseMessage → result (string * tool_calls_t).

Definition mcp_calendar_tool_name : string := "mcp_calendar_tool".

(** The nodes of the graph and the targets of its edges. *)
Inductive node : Type := agent | action.
Inductive target : Type := To (n : node) | END.

Inductive http_result : Type :=
  | Returned (response_text : string)          (* [{"response": text}] *)
  | HTTPException (status : Z) (detail : string).

(** [str(name)] for a name that may be [None]. *)
Definition fmt_name (name : option string) : string := default "None" name.

Definition unknown_tool_error (name : option string) : string :=
  "Unknown tool '" +:+ fmt_name name +:+ "' requested.".

(** What the graph runtime raises when its step budget is used up. *)
Definition recursion_error : pyexn :=
  GraphRecursionError "Recursion limit reached without hitting a stop condition".

(** The [tool_call_id]s of the tool messages of a sequence, in order. *)
Definition tool_result_ids (l : list BaseMessage) : list (option string) :=
  omap (λ m, match m with ToolMessage _ i => Some i | _ => None end) l.

(** The [try]/[except Exception] around [mcp_calendar_tool.invoke]. *)
Definition catch_tool_error (r : result pyval) : pyval :=
  match r with
  | Ok output => output
  | Raise e => failure ("Error executing mcp_calendar_tool: " +:+ exn_str e)
  end.

(** The tool calls [execute_tools] finds on a message (none on a message
    without the attribute). *)
Definition requested (m : BaseMessage) : list ToolCall :=
  from_option calls_iterable [] (get_tool_calls m).

(** ** Concrete collaborators, used to run the definitions *)

Module Demo.

Definition dquote : string := String (Ascii.ascii_of_nat 34) EmptyString.

(** A serialiser that renders error bodies and nothing else. *)
Definition json_dumps (v : pyval) : string :=
  match v with
  | VDict d =>
      match d !! "detail" with
      | Some (VStr s) =>
          "{" +:+ dquote +:+ "detail" +:+ dquote +:+ ":"
              +:+ dquote +:+ s +:+ dquote +:+ "}"
      | _ => "{}"
      end
  | _ => "null"
  end.

Definition handler (params : dict) : McpServer.endpoint_result :=
  McpServer.Returns (VDict {[ "success" := VBool true ]}).

Definition unprocessable (body : pyval) : response :=
  Response 422 "Unprocessable Entity" None.

(** A transport that reaches the MCP server of this repository. *)
Definition server_post (url : string) (body : pyval) : result response :=
  Ok (McpServer.post_mcp_call handler handler handler handler json_dumps
        unprocessable body).

(** A transport with the MCP server down. *)
Definition offline_post (url : string) (body : pyval) : result response :=
  Raise (RequestException "connection refused").

Definition url : string := "http://localhost:8000".

Definition input_error (args : pyval) : string := "validation error".

Definition message_str (m : BaseMessage) : string := "message".

Definition create_args : pyval :=
  VDict {[ "tool_name" := VStr "create_calendar_event_tool";
           "title" := VStr "Meeting" ]}.

Definition call_1 : ToolCall :=
  mkToolCall (Some "mcp_calendar_tool") (Some create_args) (Some "call_1").
Definition call_2 : ToolCall :=
  mkToolCall (Some "mcp_calendar_tool") (Some create_args) (Some "call_2").
(** A call of a tool that is not bound to the model. *)
Definition call_foo : ToolCall :=
  mkToolCall (Some "foo") (Some (VDict ∅)) (Some "call_foo").
(** A call of the proxy tool with a name outside the alias table. *)
Definition call_bogus : ToolCall :=
  mkToolCall (Some "mcp_calendar_tool")
             (Some (VDict {[ "tool_name" := VStr "bogus" ]})) (Some "call_bogus").

(** A model that asks for the same tool at every call. *)
Definition llm_always_tool : LLM :=
  λ history, Ok (EmptyString, CallsList [call_1]).

(** A model that asks for one tool, then for another, then answers. *)
Definition llm_two_rounds : LLM :=
  λ history,
    match last history with
    | Some (HumanMessage _) => Ok (EmptyString, CallsList [call_1])
    | Some (ToolMessage _ (Some "call_1")) => Ok (EmptyString, CallsList [call_2])
    | _ => Ok ("Scheduled your meeting.", CallsList [])
    end.

(** A model that answers at once. *)
Definition llm_answers : LLM :=
  λ history, Ok ("Hello.", CallsList []).

(** A model that cannot be reached. *)
Definition llm_down : LLM :=
  λ history, Raise (Exception "connection refused").

(** A model that asks for a tool and cannot be reached afterwards. *)
Definition llm_fails_later : LLM :=
  λ history,
    match last history with
    | Some (HumanMessage _) => Ok (EmptyString, CallsList [call_1])
    | _ => Raise (Exception "connection refused")
    end.

Definition seed : AgentState := {| messages := [HumanMessage "Schedule a meeting"] |}.

(** The state after a first assistant turn that asks for one tool. *)
Definition asked : AgentState :=
  {| messages := [HumanMessage "Schedule a meeting";
                  AIMessage EmptyString (CallsList [call_1])] |}.

(** The state after an assistant turn that asks for two tools the
    executor cannot resolve. *)
Definition asked_unknown : AgentState :=
  {| messages := [HumanMessage "Schedule a meeting";
                  AIMessage EmptyString (CallsList [call_foo; call_bogus])] |}.

(** What [handler] answers to the first call. *)
Definition result_1 : BaseMessage :=
  ToolMessage (VDict {[ "success" := VBool true ]}) (Some "call_1").

(** The state in which the second tool round starts. *)
Definition second_round : AgentState :=
  {| messages := [HumanMessage "Schedule a meeting";
                  AIMessage EmptyString (CallsList [call_1]);
                  HumanMessage "Schedule a meeting";
                  AIMessage EmptyString (CallsList [call_1]);
                  result_1;
                  AIMessage EmptyString (CallsList [call_2])] |}.

(** Nested wrapper: ["kwargs"] inside ["kwargs"]. *)
Definition nested_kwargs : dict :=
  {[ "kwargs" := VDict {[ "kwargs" := VDict {[ "title" := VStr "Meeting" ]} ]} ]}.

(** A wrapper with a sibling key. *)
Definition kwargs_with_sibling : dict :=
  {[ "kwargs" := VDict {[ "title" := VStr "Meeting" ]};
     "location" := VStr "Room 1" ]}.

Definition flat_kwargs : dict :=
  {[ "title" := VStr "Meeting"; "location" := VStr "Room 1" ]}.

End Demo.

(** ** The event store and its endpoints (backend/mcp_calendar_server.py) *)

Module CalendarServer.

(** [dt_str.replace('Z', '+00:00')]: every [Z] is replaced. *)
Fixpoint replace_Z (s : string) : string :=
  match s with
  | EmptyString => EmptyString
  | String c rest =>
      if Ascii.eqb c (Ascii.ascii_of_nat 90)
      then "+00:00" +:+ replace_Z rest
      else String c (replace_Z rest)
  end.

(** What an endpoint function does: return a value, raise an
    [HTTPException], or fail with some other exception (answered with
    status 500 by the framework). *)
Inductive outcome (A : Type) : Type :=
  | Done (a : A)
  | Raised (status : Z) (detail : string)
  | Crashed.
Arguments Done {A} a.
Arguments Raised {A} status detail.
Arguments Crashed {A}.

Section Store.
(** Python's [datetime] values and the two parsers [parse_datetime]
    tries; [None] stands for the exception they raise. *)
Variable datetime : Type.
Variable fromisoformat : string → option datetime.
(** [datetime.strptime(_, "%Y-%m-%d %H:%M:%S")] *)
Variable strptime : string → option datetime.

Definition parse_datetime (dt_str : string) : option datetime :=
  match fromisoformat (replace_Z dt_str) with
  | Some d => Some d
  | None => strptime dt_str
  end.

(** The [Event] model; the fields carry the prefix [ev_]. *)
Record Event : Type := mkEvent {
  ev_id : string;
  ev_title : string;
  ev_description : option string;
  ev_start_time : datetime;
  ev_end_time : datetime;
  ev_location : option string;
  ev_attendees : list string;
  ev_color : string;
  ev_created_at : datetime;
  ev_reminder_sent : bool;
  ev_google_event_id : option string;
  ev_notify_attendees : bool
}.

Definition set_title (v : string) (e : Event) : Event :=
  mkEvent (ev_id e) v (ev_description e) (ev_start_time e) (ev_end_time e)
    (ev_location e) (ev_attendees e) (ev_color e) (ev_created_at e)
    (ev_reminder_sent e) (ev_google_event_id e) (ev_notify_attendees e).
Definition set_description (v : option string) (e : Event) : Event :=
  mkEvent (ev_id e) (ev_title e) v (ev_start_time e) (ev_end_time e)
    (ev_location e) (ev_attendees e) (ev_color e) (ev_created_at e)
    (ev_reminder_sent e) (ev_google_event_id e) (ev_notify_attendees e).
Definition set_start_time (v : datetime) (e : Event) : Event :=
  mkEvent (ev_id e) (ev_title e) (ev_description e) v (ev_end_time e)
    (ev_location e) (ev_attendees e) (ev_color e) (ev_created_at e)
    (ev_reminder_sent e) (ev_google_event_id e) (ev_notify_attendees e).
Definition set_end_time (v : datetime) (e : Event) : Event :=
  mkEvent (ev_id e) (ev_title e) (ev_description e) (ev_start_time e) v
    (ev_location e) (ev_attendees e) (ev_color e) (ev_created_at e)
    (ev_reminder_sent e) (ev_google_event_id e) (ev_notify_attendees e).
Definition set_location (v : option string) (e : Event) : Event :=
  mkEvent (ev_id e) (ev_title e) (ev_description e) (ev_start_time e) (ev_end_time e)
    v (ev_attendees e) (ev_color e) (ev_created_at e)
    (ev_reminder_sent e) (ev_google_event_id e) (ev_notify_attendees e).
Definition set_attendees (v : list string) (e : Event) : Event :=
  mkEvent (ev_id e) (ev_title e) (ev_description e) (ev_start_time e) (ev_end_time e)
    (ev_location e) v (ev_color e) (ev_created_at e)
    (ev_reminder_sent e) (ev_google_event_id e) (ev_notify_attendees e).
Definition set_color (v : string) (e : Event) : Event :=
  mkEvent (ev_id e) (ev_title e) (ev_description e) (ev_start_time e) (ev_end_time e)
    (ev_location e) (ev_attendees e) v (ev_created_at e)
    (ev_reminder_sent e) (ev_google_event_id e) (ev_notify_attendees e).
Definition set_google_event_id (v : option string) (e : Event) : Event :=
  mkEvent (ev_id e) (ev_title e) (ev_description e) (ev_start_time e) (ev_end_time e)
    (ev_location e) (ev_attendees e) (ev_color e) (ev_created_at e)
    (ev_reminder_sent e) v (ev_notify_attendees e).
Definition set_notify_attendees (v : bool) (e : Event) : Event :=
  mkEvent (ev_id e) (ev_title e) (ev_description e) (ev_start_time e) (ev_end_time e)
    (ev_location e) (ev_attendees e) (ev_color e) (ev_created_at e)
    (ev_reminder_sent e) (ev_google_event_id e) v.

(** [events_db]: a Python dict, kept in insertion order. *)
Definition events_db : Type := list (string * Event).

(** [events_db.get(k)] *)
Fixpoint db_get (k : string) (db : events_db) : option Event :=
  match db with
  | [] => None
  | (k', e) :: rest => if decide (k' = k) then Some e else db_get k rest
  end.

(** [events_db[k] = e]: an existing key keeps its place, a new one goes
    to the end. *)
Fixpoint db_set (k : string) (e : Event) (db : events_db) : events_db :=
  match db with
  | [] => [(k, e)]
  | (k', e') :: rest =>
      if decide (k' = k) then (k, e) :: rest else (k', e') :: db_set k e rest
  end.

(** [del events_db[k]] *)
Fixpoint db_del (k : string) (db : events_db) : events_db :=
  match db with
  | [] => []
  | (k', e') :: rest =>
      if decide (k' = k) then db_del k rest else (k', e') :: db_del k rest
  end.

(** The keys of a dict are distinct. *)
Definition db_ok (db : events_db) : Prop := NoDup (fst <$> db).

(** Every event is stored under its own id. *)
Definition keyed_by_id (db : events_db) : Prop :=
  ∀ k e, db_get k db = Some e → ev_id e = k.

(** A call [background_tasks.add_task(send_email_notification, event,
    recipient, notification_type)]. *)
Record email_task : Type := mkTask {
  task_event : Event;
  task_recipient : pyval;
  task_type : string
}.

(** What a request leaves behind: its result, the store, and the
    background tasks it scheduled. *)
Record reply (A : Type) : Type := mkReply {
  result_of : outcome A;
  db_after : events_db;
  scheduled : list email_task
}.
Arguments mkReply {A} _ _ _.
Arguments result_of {A} _.
Arguments db_after {A} _.
Arguments scheduled {A} _.

(** The loop [for attendee in event.attendees: add_task(...)] under its
    guard [event.notify_attendees and event.attendees]. *)
Definition notify_all (event : Event) (notification_type : string) : list email_task :=
  if ev_notify_attendees event && negb (Nat.eqb (length (ev_attendees event)) 0)
  then (λ attendee, mkTask event (VStr attendee) notification_type) <$> ev_attendees event
  else [].

(** *** Google Calendar *)

(** The two calls of the Google client: [None] when anything raises,
    otherwise [result.get('id', '')]. *)
Variable google_update : string → Event → option string.
Variable google_insert : Event → option string.

Definition nonempty (s : string) : bool := negb (String.eqb s EmptyString).

Definition sync_to_google_calendar (event : Event) : string :=
  match ev_google_event_id event with
  | Some gid =>
      if nonempty gid then default EmptyString (google_update gid event)
      else default EmptyString (google_insert event)
  | None => default EmptyString (google_insert event)
  end.

(** [import_from_google_calendar]: [fetched] is what the listing call
    and the conversion of its items give: [None] when the listing raises,
    and for each item the [Event] built from it, or [None] when building
    it raises. *)
Fixpoint import_items (items : list (option Event)) (imported : list Event)
    (db : events_db) : list Event * events_db :=
  match items with
  | [] => (imported, db)
  | None :: _ => ([], db)
  | Some event :: rest =>
      import_items rest (imported ++ [event]) (db_set (ev_id event) event db)
  end.

Definition import_from_google_calendar (fetched : option (list (option Event)))
    (db : events_db) : list Event * events_db :=
  match fetched with
  | None => ([], db)
  | Some items => import_items items [] db
  end.

(** *** Email *)

Variables EMAIL_USER EMAIL_PASSWORD : string.
(** Building the message and the SMTP session: sender, recipient,
    subject, body; [false] when any of it raises. *)
Variable smtp_deliver : string → pyval → string → string → bool.
(** The HTML body for a notification type. *)
Variable email_body : string → Event → string.

Definition email_subject (notification_type : string) (event : Event) : string :=
  if decide (notification_type = "reminder") then "Reminder: " +:+ ev_title event
  else if decide (notification_type = "invitation") then "Invitation: " +:+ ev_title event
  else if decide (notification_type = "update") then "Updated: " +:+ ev_title event
  else "Cancelled: " +:+ ev_title event.

Definition send_email_notification (event : Event) (recipient : pyval)
    (notification_type : string) : bool :=
  if negb (nonempty EMAIL_USER) || negb (nonempty EMAIL_PASSWORD) then false
  else smtp_deliver EMAIL_USER recipient
         (email_subject notification_type event) (email_body notification_type event).

(** *** REST endpoints *)

Record CreateEventRequest : Type := mkCreate {
  cr_title : string;
  cr_description : option string;
  cr_start_time : string;
  cr_end_time : string;
  cr_location : option string;
  cr_attendees : list string;
  cr_color : string;
  cr_notify_attendees : bool;
  cr_sync_to_google : bool
}.

Record UpdateEventRequest : Type := mkUpdate {
  up_title : option string;
  up_description : option string;
  up_start_time : option string;
  up_end_time : option string;
  up_location : option string;
  up_attendees : option (list string);
  up_color : option string;
  up_notify_attendees : option bool
}.

(** A request body that sets no field. *)
Definition empty_update : UpdateEventRequest :=
  mkUpdate None None None None None None None None.

Record EmailNotificationRequest : Type := mkEmailRequest {
  er_event_id : string;
  er_recipient : string;
  er_notification_type : string
}.

(** [POST /events]; [event_id] is the value of [generate_event_id()] and
    [now] that of [datetime.now()]. *)
Definition create_event (event_id : string) (now : datetime)
    (request : CreateEventRequest) (db : events_db) : reply Event :=
  match parse_datetime (cr_start_time request) with
  | None => mkReply Crashed db []
  | Some start =>
      match parse_datetime (cr_end_time request) with
      | None => mkReply Crashed db []
      | Some finish =>
          let event :=
            mkEvent event_id (cr_title request) (cr_description request) start finish
              (cr_location request) (cr_attendees request) (cr_color request)
              now false None (cr_notify_attendees request) in
          let db1 := db_set event_id event db in
          let google_event_id :=
            if cr_sync_to_google request then sync_to_google_calendar event
            else EmptyString in
          if nonempty google_event_id then
            let event' := set_google_event_id (Some google_event_id) event in
            mkReply (Done event') (db_set event_id event' db1)
                    (notify_all event' "invitation")
          else mkReply (Done event) db1 (notify_all event "invitation")
      end
  end.

(** [GET /events] *)
Definition list_events (db : events_db) : list Event := snd <$> db.

(** [GET /events/{event_id}] *)
Definition get_event (event_id : string) (db : events_db) : outcome Event :=
  match db_get event_id db with
  | None => Raised 404 "Event not found"
  | Some event => Done event
  end.

(** The four fields no update touches. *)
Definition same_identity (old new : Event) : Prop :=
  ev_id new = ev_id old
  ∧ ev_created_at new = ev_created_at old
  ∧ ev_reminder_sent new = ev_reminder_sent old
  ∧ ev_google_event_id new = ev_google_event_id old.

(** One conditional assignment of [update_event]. *)
Definition assign {A} (field : option A) (set : A → Event → Event) (e : Event) : Event :=
  match field with
  | Some v => set v e
  | None => e
  end.

(** [PUT /events/{event_id}].  The event is changed field by field in
    the store, so a failing [parse_datetime] leaves the earlier
    assignments in place. *)
Definition update_event (event_id : string) (request : UpdateEventRequest)
    (db : events_db) : reply Event :=
  match db_get event_id db with
  | None => mkReply (Raised 404 "Event not found") db []
  | Some event =>
      let e2 := assign (up_description request) (λ v, set_description (Some v))
                  (assign (up_title request) set_title event) in
      match from_option (λ s, Some <$> parse_datetime s) (Some None)
              (up_start_time request) with
      | None => mkReply Crashed (db_set event_id e2 db) []
      | Some start =>
          let e3 := assign start set_start_time e2 in
          match from_option (λ s, Some <$> parse_datetime s) (Some None)
                  (up_end_time request) with
          | None => mkReply Crashed (db_set event_id e3 db) []
          | Some finish =>
              let e8 :=
                assign (up_notify_attendees request) set_notify_attendees
                  (assign (up_color request) set_color
                     (assign (up_attendees request) set_attendees
                        (assign (up_location request) (λ v, set_location (Some v))
                           (assign finish set_end_time e3)))) in
              mkReply (Done e8) (db_set event_id e8 db) (notify_all e8 "update")
          end
      end
  end.

(** [DELETE /events/{event_id}] *)
Definition delete_event (event_id : string) (db : events_db) : reply pyval :=
  match db_get event_id db with
  | None => mkReply (Raised 404 "Event not found") db []
  | Some event =>
      mkReply (Done (VDict {[ "success" := VBool true ]}))
              (db_del event_id db) (notify_all event "cancellation")
  end.

(** [POST /events/{event_id}/reminder] *)
Definition send_event_reminder (event_id : string) (request : EmailNotificationRequest)
    (db : events_db) : reply pyval :=
  match db_get event_id db with
  | None => mkReply (Raised 404 "Event not found") db []
  | Some event =>
      mkReply (Done (VDict {[ "success" := VBool true ]})) db
              [mkTask event (VStr (er_recipient request)) (er_notification_type request)]
  end.

Definition sync_failed : pyval :=
  VDict {[ "success" := VBool false;
           "message" := VStr "Failed to sync with Google Calendar" ]}.

Definition sync_done (google_event_id : string) : dict :=
  {[ "success" := VBool true; "google_event_id" := VStr google_event_id ]}.

(** [POST /events/{event_id}/sync-google] *)
Definition sync_event_to_google (event_id : string) (db : events_db) : reply pyval :=
  match db_get event_id db with
  | None => mkReply (Raised 404 "Event not found") db []
  | Some event =>
      let google_event_id := sync_to_google_calendar event in
      if nonempty google_event_id then
        mkReply (Done (VDict (sync_done google_event_id)))
                (db_set event_id (set_google_event_id (Some google_event_id) event) db) []
      else mkReply (Done sync_failed) db []
  end.

(** *** MCP tools *)

(** [str(v)] for the values that are not strings. *)
Variable py_str_other : pyval → string.

Definition py_str (v : pyval) : string :=
  match v with
  | VStr s => s
  | _ => py_str_other v
  end.

(** [key in events_db] for an arbitrary value: lists and dicts cannot be
    hashed ([None]: [TypeError]); values other than strings are never
    keys. *)
Definition db_find (key : pyval) (db : events_db) : option (option (string * Event)) :=
  match key with
  | VStr k => Some ((λ e, (k, e)) <$> db_get k db)
  | VList _ | VDict _ => None
  | _ => Some None
  end.

(** [send_reminder_tool(params, background_tasks)] *)
Definition send_reminder_tool (params : dict) (db : events_db) : reply pyval :=
  match params !! "event_id", params !! "recipient" with
  | Some event_id, Some recipient =>
      match db_find event_id db with
      | None => mkReply Crashed db []
      | Some None => mkReply (Raised 404 "Event not found") db []
      | Some (Some (_, event)) =>
          mkReply
            (Done (VDict {[ "success" := VBool true;
                            "message" := VStr ("Reminder sent to " +:+ py_str recipient) ]}))
            db [mkTask event recipient "reminder"]
      end
  | _, _ => mkReply Crashed db []
  end.

(** The [Event] that case 2 of [sync_google_tool] builds from the given
    id and the parameters; [None] when building it raises. *)
Variable temp_event_of : string → dict → option Event.
(** [event.dict()] *)
Variable event_dict : Event → pyval.

(** [params.get(key)] *)
Definition params_get (key : string) (params : dict) : pyval :=
  default VNone (params !! key).

(** [sync_google_tool(params)]; [fresh_id] is the value
    [generate_event_id()] would give. *)
Definition sync_google_tool (fresh_id : string) (params : dict) (db : events_db)
    : reply pyval :=
  let event_id := params_get "event_id" params in
  if py_truthy event_id then
    match db_find event_id db with
    | None => mkReply Crashed db []
    | Some None => mkReply (Raised 404 "Event not found") db []
    | Some (Some (k, event)) =>
        let google_event_id := sync_to_google_calendar event in
        if nonempty google_event_id then
          mkReply (Done (VDict (sync_done google_event_id)))
                  (db_set k (set_google_event_id (Some google_event_id) event) db) []
        else mkReply (Done sync_failed) db []
    end
  else
    if negb (py_truthy (params_get "start_time" params))
       || negb (py_truthy (params_get "end_time" params))
    then
      mkReply
        (Raised 400
           "calendar_sync_google expects either event_id or start_time and end_time.")
        db []
    else
      match temp_event_of fresh_id params with
      | None => mkReply Crashed db []
      | Some temp_event =>
          let google_event_id := sync_to_google_calendar temp_event in
          if nonempty google_event_id then
            let temp_event' := set_google_event_id (Some google_event_id) temp_event in
            mkReply
              (Done (VDict (<["event" := event_dict temp_event']>
                              (sync_done google_event_id))))
              (db_set (ev_id temp_event') temp_event' db) []
          else mkReply (Done sync_failed) db []
      end.

(** The reply of a tool as the dispatcher of [/mcp/call] returns it. *)
Definition as_endpoint_result (r : outcome pyval) : McpServer.endpoint_result :=
  match r with
  | Done data => McpServer.Returns data
  | Raised status detail => McpServer.RaisesHTTP status detail
  | Crashed => McpServer.Fails
  end.

End Store.

Arguments mkEvent {datetime}.
Arguments ev_id {datetime} e.
Arguments ev_title {datetime} e.
Arguments ev_description {datetime} e.
Arguments ev_start_time {datetime} e.
Arguments ev_end_time {datetime} e.
Arguments ev_location {datetime} e.
Arguments ev_attendees {datetime} e.
Arguments ev_color {datetime} e.
Arguments ev_created_at {datetime} e.
Arguments ev_reminder_sent {datetime} e.
Arguments ev_google_event_id {datetime} e.
Arguments ev_notify_attendees {datetime} e.
Arguments set_title {datetime} v e.
Arguments set_description {datetime} v e.
Arguments set_start_time {datetime} v e.
Arguments set_end_time {datetime} v e.
Arguments set_location {datetime} v e.
Arguments set_attendees {datetime} v e.
Arguments set_color {datetime} v e.
Arguments set_google_event_id {datetime} v e.
Arguments set_notify_attendees {datetime} v e.
Arguments db_get {datetime} k db.
Arguments db_set {datetime} k e db.
Arguments db_del {datetime} k db.
Arguments db_ok {datetime} db.
Arguments keyed_by_id {datetime} db.
Arguments mkTask {datetime}.
Arguments task_event {datetime} e.
Arguments task_recipient {datetime} e.
Arguments task_type {datetime} e.
Arguments mkReply {datetime A}.
Arguments result_of {datetime A}.
Arguments db_after {datetime A}.
Arguments scheduled {datetime A}.
Arguments parse_datetime {datetime}.
Arguments notify_all {datetime}.
Arguments sync_to_google_calendar {datetime}.
Arguments import_items {datetime}.
Arguments import_from_google_calendar {datetime}.
Arguments email_subject {datetime}.
Arguments send_email_notification {datetime}.
Arguments create_event {datetime}.
Arguments list_events {datetime}.
Arguments get_event {datetime}.
Arguments assign {datetime A}.
Arguments same_identity {datetime}.
Arguments update_event {datetime}.
Arguments delete_event {datetime}.
Arguments send_event_reminder {datetime}.
Arguments sync_event_to_google {datetime}.
Arguments db_find {datetime}.
Arguments send_reminder_tool {datetime}.
Arguments sync_google_tool {datetime}.

End CalendarServer.

(** ** A concrete store, used to run the definitions *)

Module DemoStore.
Import CalendarServer.

(** Times are kept as the strings they were written as; the ISO parser
    takes what starts with a year of this century, the other parser
    nothing. *)
Definition fromisoformat (s : string) : option string :=
  if String.prefix "20" s then Some s else None.
Definition strptime (s : string) : option string := None.

(** Google accepts every event: an update keeps the id, an insert gives
    a new one. *)
Definition google_update (gid : string) (e : Event string) : option string := Some gid.
Definition google_insert (e : Event string) : option string := Some "g-1".
(** Google is down. *)
Definition google_down_update (gid : string) (e : Event string) : option string := None.
Definition google_down_insert (e : Event string) : option string := None.

Definition py_str_other (v : pyval) : string := "?".
Definition temp_event_of (fresh_id : string) (params : dict) : option (Event string) := None.
Definition event_dict (e : Event string) : pyval := VStr (ev_id e).
Definition smtp_deliver (sender : string) (recipient : pyval) (subject body : string) : bool :=
  true.
Definition email_body (notification_type : string) (e : Event string) : string :=
  ev_title e.

Definition standup : Event string :=
  mkEvent "ev-1" "Standup" None "2025-01-02T09:00:00" "2025-01-02T09:15:00"
    None ["ann@example.com"; "bob@example.com"] "#3b82f6"
    "2025-01-01T08:00:00" false None true.

Definition review : Event string :=
  mkEvent "ev-2" "Review" (Some "Quarterly") "2025-01-03T10:00:00" "2025-01-03T11:00:00"
    (Some "Room 1") [] "#3b82f6" "2025-01-01T08:05:00" false None true.

Definition db : events_db string := [("ev-1", standup); ("ev-2", review)].

Definition lunch_request : CreateEventRequest :=
  mkCreate "Lunch" None "2025-01-04T12:00:00Z" "2025-01-04T13:00:00Z"
    None ["ann@example.com"] "#3b82f6" true false.

Definition bad_request : CreateEventRequest :=
  mkCreate "Lunch" None "tomorrow noon" "2025-01-04T13:00:00Z"
    None ["ann@example.com"] "#3b82f6" true false.

(** A new title together with a start time that does not parse. *)
Definition bad_update : UpdateEventRequest :=
  mkUpdate (Some "Daily") None (Some "tomorrow") None None None None None.

Definition odd_reminder : EmailNotificationRequest :=
  mkEmailRequest "ev-2" "ann@example.com" "nudge".

Definition reminder_params : dict :=
  {[ "event_id" := VStr "ev-9"; "recipient" := VStr "ann@example.com" ]}.

(** The proxy-tool call that asks for a reminder of an event that is not
    stored. *)
Definition reminder_call : ToolCall :=
  mkToolCall (Some "mcp_calendar_tool")
    (Some (VDict (<["tool_name" := VStr "send_calendar_reminder_tool"]> reminder_params)))
    (Some "call_r").

(** A transport that reaches the dispatcher with the reminder tool
    working on [db]. *)
Definition server_post (url : string) (body : pyval) : result response :=
  Ok (McpServer.post_mcp_call Demo.handler
        (λ p, as_endpoint_result (result_of (send_reminder_tool py_str_other p db)))
        Demo.handler Demo.handler Demo.json_dumps Demo.unprocessable body).

End DemoStore.

Section Agent.
(** Configuration and collaborators. *)
Variable MCP_SERVER_URL : string.
(** [requests.post(url, json=body, timeout=15)] *)
Variable requests_post : string → pyval → result response.
(** The message of the error LangChain raises for an input that does
    not fit the tool's signature. *)
Variable tool_input_error : pyval → string.
(** [None] when the model could not be initialised at start-up. *)
Variable llm_with_tools : option LLM.
(** [str(message)] *)
Variable message_str : BaseMessage → string.
(** The step budget of the graph runtime; the source passes none to
    [graph.invoke], so the runtime's own value applies. *)
Variable recursion_limit : nat.

(** Steps 3 of [mcp_calendar_tool]: what becomes of the outcome of the
    POST. *)
Definition handle_post (r : result response) : result pyval :=
  match r with
  | Raise (RequestException e) =>
      Ok (failure ("Error communicating with MCP Server: " +:+ e))
  | Raise e => Raise e
  | Ok resp =>
      if negb (resp_ok resp) then
        Ok (failure ("MCP server returned " +:+ pretty (status_code resp)
                     +:+ ": " +:+ text resp))
      else
        match json resp with
        | None =>
            Ok (failure ("MCP server returned non-JSON response: "
                         +:+ String.substring 0 200 (text resp)))
        | Some data => Ok data
        end
  end.

(** The body of [mcp_calendar_tool]; [kwargs] holds its keyword
    arguments other than [tool_name]. *)
Definition mcp_calendar_tool (tool_name : string) (kwargs : dict) : result pyval :=
  let params := normalize kwargs in
  let mcp_tool_id := mcp_tool_id_of tool_name in
  handle_post
    (requests_post (MCP_SERVER_URL +:+ "/mcp/call") (call_body mcp_tool_id params)).

(** [mcp_calendar_tool.invoke(args)].  Model of library code: [invoke]
    is a method of LangChain's tool wrapper, which is not part of this
    repository, so this definition is a model of it and not a translation.
    It assumes what the docstring of [mcp_calendar_tool] describes: the
    entries of [args] are bound as keyword arguments of the call, with
    [tool_name] a string and every other key going to [kwargs]; an input
    that does not fit is taken to raise.  The properties of this file are
    stated on the body [mcp_calendar_tool], on the outcome of this call
    whatever it is, or under hypotheses that fix the arguments handed
    on. *)
Definition mcp_calendar_tool_invoke (args : pyval) : result pyval :=
  match args with
  | VDict d =>
      match d !! "tool_name" with
      | Some (VStr tool_name) => mcp_calendar_tool tool_name (delete "tool_name" d)
      | _ => Raise (Exception (tool_input_error args))
      end
  | _ => Raise (Exception (tool_input_error args))
  end.

(** [raw_call.get("args", {}) or {}] *)
Definition call_args (c : ToolCall) : pyval :=
  let a := default (VDict ∅) (tc_args c) in
  if py_truthy a then a else VDict ∅.

(** The body of the [for] loop of [execute_tools], up to [output]. *)
Definition call_output (c : ToolCall) : pyval :=
  if decide (tc_name c = Some mcp_calendar_tool_name) then
    catch_tool_error (mcp_calendar_tool_invoke (call_args c))
  else failure (unknown_tool_error (tc_name c)).

Definition tool_message_of (c : ToolCall) : BaseMessage :=
  ToolMessage (call_output c) (tc_id c).

Definition run_llm (state : AgentState) : result AgentState :=
  match llm_with_tools with
  | None =>
      Ok {| messages :=
              [AIMessage "The AI agent backend is currently unavailable. Please check the Ollama server."
                         (CallsList [])] |}
  | Some llm =>
      '(content, tool_calls) ← llm (messages state);
      Ok {| messages := [AIMessage content tool_calls] |}
  end.

Definition execute_tools (state : AgentState) : result AgentState :=
  last_message ← list_last (messages state);
  let tool_calls_raw := get_tool_calls last_message in
  if negb (calls_truthy tool_calls_raw) then Ok {| messages := messages state |}
  else
    let iterable := requested last_message in
    let tool_messages := tool_message_of <$> iterable in
    Ok {| messages := messages state ++ tool_messages |}.

Definition should_continue (state : AgentState) : result string :=
  last_message ← list_last (messages state);
  if calls_truthy (get_tool_calls last_message)
  then Ok "continue_to_tools" else Ok "end_graph".

(** *** The workflow *)

Definition node_fn (n : node) : AgentState → result AgentState :=
  match n with
  | agent => run_llm
  | action => execute_tools
  end.

(** The table of the conditional edges leaving ["agent"]. *)
Definition conditional_edges (label : string) : result target :=
  if decide (label = "continue_to_tools") then Ok (To action)
  else if decide (label = "end_graph") then Ok END
  else Raise (Exception label).

Definition next_target (n : node) (state : AgentState) : result target :=
  match n with
  | agent => label ← should_continue state; conditional_edges label
  | action => Ok (To agent)
  end.

(** One node execution: run the node, fold its return value into the
    state with the channel's reducer, follow the outgoing edge. *)
Definition graph_step (n : node) (state : AgentState) : result (target * AgentState) :=
  update ← node_fn n state;
  let state' := reducer state update in
  t ← next_target n state';
  Ok (t, state').

(** The compiled graph run from node [n] with a budget of [limit] node
    executions; the runtime raises [GraphRecursionError] when the budget
    is used up before [END] is reached. *)
Fixpoint graph_run (limit : nat) (n : node) (state : AgentState) : result AgentState :=
  match limit with
  | O => Raise recursion_error
  | S limit' =>
      '(t, state') ← graph_step n state;
      match t with
      | END => Ok state'
      | To n' => graph_run limit' n' state'
      end
  end.

(** The configuration after [k] node executions (fewer when [END] is
    reached before). *)
Fixpoint graph_steps (k : nat) (n : node) (state : AgentState) : result (target * AgentState) :=
  match k with
  | O => Ok (To n, state)
  | S k' =>
      '(t, state') ← graph_step n state;
      match t with
      | END => Ok (END, state')
      | To n' => graph_steps k' n' state'
      end
  end.

(** [graph.invoke(input)], entry point ["agent"]. *)
Definition graph_invoke (input : AgentState) : result AgentState :=
  graph_run recursion_limit agent (reducer {| messages := [] |} input).

(** The body of the [try] block of [chat_with_agent]. *)
Definition chat_body (message : string) : result string :=
  let initial_messages := [HumanMessage message] in
  final_state ← graph_invoke {| messages := initial_messages |};
  final_message ← list_last (messages final_state);
  match final_message with
  | AIMessage content _ => Ok content
  | _ => Ok (message_str final_message)
  end.

(** [POST /chat] *)
Definition chat_with_agent (message : string) : http_result :=
  match llm_with_tools with
  | None =>
      HTTPException 503 "LLM backend is unavailable. Please ensure Ollama is running."
  | Some _ =>
      match chat_body message with
      | Ok response_text => Returned response_text
      | Raise e => HTTPException 500 ("AI Agent Error: " +:+ exn_str e)
      end
  end.

(** *** Runs, counted in calls of the Decision Provider *)

(** [stops_at_call llm k s s']: started in the ["agent"] node with
    state [s], the provider asks for tools at its first [k-1] calls and
    for none at its [k]-th; [s'] is the state at that point. *)
Inductive stops_at_call (llm : LLM) : nat → AgentState → AgentState → Prop :=
  | stops_now s content tool_calls :
      llm (messages s) = Ok (content, tool_calls) →
      calls_truthy (Some tool_calls) = false →
      stops_at_call llm 1 s (reducer s {| messages := [AIMessage content tool_calls] |})
  | stops_later k s content tool_calls update s' :
      llm (messages s) = Ok (content, tool_calls) →
      calls_truthy (Some tool_calls) = true →
      execute_tools (reducer s {| messages := [AIMessage content tool_calls] |}) = Ok update →
      stops_at_call llm k
        (reducer (reducer s {| messages := [AIMessage content tool_calls] |}) update) s' →
      stops_at_call llm (S k) s s'.

(** A provider that asks for tools at every call and never fails. *)
Definition never_stops (llm : LLM) : Prop :=
  ∀ history, ∃ content tool_calls,
    llm history = Ok (content, tool_calls) ∧ calls_truthy (Some tool_calls) = true.

(** *** The health endpoint *)

(** The configured model name. *)
Variable OLLAMA_MODEL : string.

(** [GET /health] *)
Definition health_check : dict :=
  let status := if llm_with_tools is Some _ then "ok" else "error" in
  {[ "status" := VStr status; "model" := VStr OLLAMA_MODEL ]}.

(** * Properties of the agent *)

(** ** The tool-execution node *)

Lemma requested_falsy (m : BaseMessage) :
  calls_truthy (get_tool_calls m) = false → requested m = [].
Proof.
  unfold requested, calls_truthy.
  destruct (get_tool_calls m) as [tcs|]; simpl; [|reflexivity].
  destruct (calls_iterable tcs); [reflexivity|discriminate].
Qed.

Lemma execute_tools_last (st : AgentState) (m : BaseMessage) :
  last (messages st) = Some m →
  execute_tools st
  = Ok {| messages := messages st ++ (tool_message_of <$> requested m) |}.
Proof.
  intros Hlast. unfold execute_tools, list_last. rewrite Hlast.
  unfold mbind, result_bind.
  destruct (calls_truthy (get_tool_calls m)) eqn:E; simpl.
  - reflexivity.
  - rewrite (requested_falsy m E). simpl. rewrite app_nil_r. reflexivity.
Qed.

Lemma graph_step_action (st : AgentState) (m : BaseMessage) :
  last (messages st) = Some m →
  graph_step action st
  = Ok (To agent,
        {| messages := messages st ++ (messages st ++ (tool_message_of <$> requested m)) |}).
Proof.
  intros Hlast. unfold graph_step. simpl node_fn.
  rewrite (execute_tools_last st m Hlast). reflexivity.
Qed.

Lemma tool_messages_are_tool_messages (cs : list ToolCall) :
  Forall (λ m, is_tool_message m = true) (tool_message_of <$> cs).
Proof.
  induction cs as [|c cs IH]; simpl; constructor; [reflexivity|exact IH].
Qed.


(** ** Append-only state *)

(** C3: a step of either node leaves the messages already in the state
    where they are: the old sequence is a prefix of the new one, and
    every old position still holds the same message. *)
Theorem graph_step_appends
    (n : node) (st : AgentState) (t : target) (st' : AgentState) :
  graph_step n st = Ok (t, st') →
  messages st `prefix_of` messages st'
  ∧ ∀ i m, messages st !! i = Some m → messages st' !! i = Some m.
Proof.
  unfold graph_step, mbind, result_bind.
  destruct (node_fn n st) as [update|e]; [|discriminate].
  destruct (next_target n (reducer st update)) as [t'|e]; [|discriminate].
  intros [= <- <-]. simpl. split.
  - exists (messages update). reflexivity.
  - intros i m Hi. apply lookup_app_l_Some. exact Hi.
Qed.

Lemma graph_run_appends (limit : nat) :
  ∀ n st st', graph_run limit n st = Ok st' → messages st `prefix_of` messages st'.
Proof.
  induction limit as [|limit IH]; intros n st st'; simpl; [discriminate|].
  unfold mbind, result_bind.
  destruct (graph_step n st) as [[t st1]|e] eqn:Hstep; [|discriminate].
  destruct (graph_step_appends n st t st1 Hstep) as [Hpre _].
  destruct t as [n'|].
  - intros Hrun. etrans; [exact Hpre|]. exact (IH n' st1 st' Hrun).
  - intros [= <-]. exact Hpre.
Qed.

(** ** Failures of a tool call *)

Lemma call_output_unknown (c : ToolCall) :
  tc_name c ≠ Some mcp_calendar_tool_name →
  call_output c = failure (unknown_tool_error (tc_name c)).
Proof. intros Hne. unfold call_output. rewrite decide_False by exact Hne. reflexivity. Qed.

Lemma call_output_invoke (c : ToolCall) :
  tc_name c = Some mcp_calendar_tool_name →
  call_output c = catch_tool_error (mcp_calendar_tool_invoke (call_args c)).
Proof. intros He. unfold call_output. rewrite decide_True by exact He. reflexivity. Qed.

Lemma call_output_post (c : ToolCall) (d : dict) (tool_name : string) :
  tc_name c = Some mcp_calendar_tool_name →
  call_args c = VDict d →
  d !! "tool_name" = Some (VStr tool_name) →
  call_output c
  = catch_tool_error
      (handle_post
         (requests_post (MCP_SERVER_URL +:+ "/mcp/call")
            (call_body (mcp_tool_id_of tool_name) (normalize (delete "tool_name" d))))).
Proof.
  intros He Hargs Hname. rewrite (call_output_invoke c He), Hargs.
  unfold mcp_calendar_tool_invoke. rewrite Hname. reflexivity.
Qed.

Lemma mcp_tool_id_of_unmapped (tool_name : string) :
  TOOL_NAME_MAP !! tool_name = None → mcp_tool_id_of tool_name = tool_name.
Proof. unfold mcp_tool_id_of. intros ->. reflexivity. Qed.

Lemma tool_message_in_step (st : AgentState) (m : BaseMessage) (c : ToolCall) :
  last (messages st) = Some m →
  c ∈ requested m →
  ∃ st', graph_step action st = Ok (To agent, st')
         ∧ tool_message_of c ∈ messages st'.
Proof.
  intros Hlast Hc. eexists. split; [exact (graph_step_action st m Hlast)|].
  simpl. rewrite !elem_of_app. right. right.
  apply list_elem_of_fmap. exists c. split; [reflexivity|exact Hc].
Qed.

(** C5: on any state with a last message the node returns normally and
    hands over to the agent node.  The message built for a call of the
    proxy tool is part of what it returns, and when the invocation
    raises, the POST fails on the network, or the server answers with
    an error status, that message holds a failure payload with the text
    of the exception or of the response. *)
Theorem handler_exceptions_become_content
    (st : AgentState) (last_message : BaseMessage) (c : ToolCall) :
  last (messages st) = Some last_message →
  c ∈ requested last_message →
  tc_name c = Some mcp_calendar_tool_name →
  ∃ tool_messages,
    execute_tools st = Ok {| messages := messages st ++ tool_messages |}
    ∧ graph_step action st
      = Ok (To agent, {| messages := messages st ++ (messages st ++ tool_messages) |})
    ∧ ToolMessage (call_output c) (tc_id c) ∈ tool_messages
    ∧ (∀ e, mcp_calendar_tool_invoke (call_args c) = Raise e →
            call_output c
            = failure ("Error executing mcp_calendar_tool: " +:+ exn_str e))
    ∧ (∀ d tool_name msg,
          call_args c = VDict d →
          d !! "tool_name" = Some (VStr tool_name) →
          requests_post (MCP_SERVER_URL +:+ "/mcp/call")
            (call_body (mcp_tool_id_of tool_name) (normalize (delete "tool_name" d)))
          = Raise (RequestException msg) →
          call_output c
          = failure ("Error communicating with MCP Server: " +:+ msg))
    ∧ (∀ d tool_name resp,
          call_args c = VDict d →
          d !! "tool_name" = Some (VStr tool_name) →
          requests_post (MCP_SERVER_URL +:+ "/mcp/call")
            (call_body (mcp_tool_id_of tool_name) (normalize (delete "tool_name" d)))
          = Ok resp →
          resp_ok resp = false →
          call_output c
          = failure ("MCP server returned " +:+ pretty (status_code resp)
                     +:+ ": " +:+ text resp)).
Proof.
  intros Hlast Hc Hname.
  exists (tool_message_of <$> requested last_message).
  split; [|split; [|split; [|split; [|split]]]].
  - exact (execute_tools_last st _ Hlast).
  - exact (graph_step_action st _ Hlast).
  - apply list_elem_of_fmap. exists c. split; [reflexivity|exact Hc].
  - intros e He. rewrite (call_output_invoke c Hname), He. reflexivity.
  - intros d tool_name msg Hargs Htool Hpost.
    rewrite (call_output_post c d tool_name Hname Hargs Htool), Hpost.
    reflexivity.
  - intros d tool_name resp Hargs Htool Hpost Hok.
    rewrite (call_output_post c d tool_name Hname Hargs Htool), Hpost.
    unfold handle_post. rewrite Hok. reflexivity.
Qed.

(** ** Names the executor does not know *)

Lemma run_llm_some (llm : LLM) (st : AgentState) :
  llm_with_tools = Some llm →
  run_llm st
  = llm (messages st) ≫= λ '(content, tool_calls),
      Ok {| messages := [AIMessage content tool_calls] |}.
Proof. unfold run_llm. intros ->. reflexivity. Qed.

(** C4, as amended: a call that names another tool than the proxy tool
    gets the payload [Unknown tool '<name>' requested.]; a call of the
    proxy tool with a [tool_name] outside the alias table is posted to
    the server under that very name and its result is made from the
    outcome of the POST.  Either way the message built for the call is
    in the state after the step, the next node is the agent node, and
    the provider is then asked with that state's messages. *)
Theorem unknown_tool_is_reported_and_loop_continues
    (st : AgentState) (content : string) (tcs : tool_calls_t) (c : ToolCall) :
  last (messages st) = Some (AIMessage content tcs) →
  c ∈ calls_iterable tcs →
  (tc_name c ≠ Some mcp_calendar_tool_name →
   call_output c = failure (unknown_tool_error (tc_name c)))
  ∧ (∀ d tool_name,
        tc_name c = Some mcp_calendar_tool_name →
        call_args c = VDict d →
        d !! "tool_name" = Some (VStr tool_name) →
        TOOL_NAME_MAP !! tool_name = None →
        call_output c
        = catch_tool_error
            (handle_post
               (requests_post (MCP_SERVER_URL +:+ "/mcp/call")
                  (call_body tool_name (normalize (delete "tool_name" d))))))
  ∧ ∃ st',
      graph_step action st = Ok (To agent, st')
      ∧ ToolMessage (call_output c) (tc_id c) ∈ messages st'
      ∧ ∀ llm, llm_with_tools = Some llm →
          run_llm st'
          = llm (messages st') ≫= λ '(content', tool_calls'),
              Ok {| messages := [AIMessage content' tool_calls'] |}.
Proof.
  intros Hlast Hc. split; [|split].
  - apply call_output_unknown.
  - intros d tool_name Hname Hargs Htool Hmap.
    rewrite (call_output_post c d tool_name Hname Hargs Htool).
    rewrite (mcp_tool_id_of_unmapped tool_name Hmap). reflexivity.
  - destruct (tool_message_in_step st _ c Hlast Hc) as (st' & Hstep & Hin).
    exists st'. split; [exact Hstep|]. split; [exact Hin|].
    intros llm Hllm. exact (run_llm_some llm st' Hllm).
Qed.

Lemma server_rejects_unmapped
    (h1 h2 h3 h4 : dict → McpServer.endpoint_result) (tool_name : string) (params : dict) :
  TOOL_NAME_MAP !! tool_name = None →
  McpServer.call_tool h1 h2 h3 h4 tool_name params
  = McpServer.RaisesHTTP 400 ("Unknown tool: " +:+ tool_name).
Proof.
  intros Hmap. unfold McpServer.call_tool.
  repeat case_decide; subst; try reflexivity; vm_compute in Hmap; discriminate Hmap.
Qed.

Lemma post_mcp_call_body
    (h1 h2 h3 h4 : dict → McpServer.endpoint_result) (json_dumps : pyval → string)
    (unprocessable : pyval → response) (tool : string) (params : dict) :
  McpServer.post_mcp_call h1 h2 h3 h4 json_dumps unprocessable (call_body tool params)
  = McpServer.render json_dumps (McpServer.call_tool h1 h2 h3 h4 tool params).
Proof.
  unfold McpServer.post_mcp_call, call_body.
  rewrite lookup_insert_eq.
  rewrite lookup_insert_ne by discriminate.
  rewrite lookup_singleton_eq. reflexivity.
Qed.

Lemma failure_inj (a b : string) : failure a = failure b → a = b.
Proof.
  unfold failure. intros E.
  apply (f_equal (λ v, match v with VDict m => m !! "error" | _ => None end)) in E.
  rewrite !lookup_insert_ne in E by discriminate.
  rewrite !lookup_singleton_eq in E. congruence.
Qed.

(** What a call of the proxy tool can come back with: data the server
    sent with a success status, or a failure payload whose text is not
    the executor's unknown-tool text. *)
Lemma call_output_mcp_cases (c : ToolCall) :
  tc_name c = Some mcp_calendar_tool_name →
  (∃ url body resp,
      requests_post url body = Ok resp
      ∧ resp_ok resp = true ∧ json resp = Some (call_output c))
  ∨ (∃ msg, call_output c = failure msg ∧ ∀ name, msg ≠ unknown_tool_error name).
Proof.
  intros Hname. rewrite (call_output_invoke c Hname).
  assert (Hexn : ∀ e,
    ∃ msg, catch_tool_error (Raise e) = failure msg
           ∧ ∀ name, msg ≠ unknown_tool_error name).
  { intros e. eexists. split; [reflexivity|]. intros name. discriminate. }
  unfold mcp_calendar_tool_invoke.
  destruct (call_args c) as [| | | | |d]; try (right; apply Hexn).
  destruct (d !! "tool_name") as [[| | |tool_name| |]|]; try (right; apply Hexn).
  unfold mcp_calendar_tool.
  destruct (requests_post _ _) as [resp|e] eqn:Hpost; cbn [handle_post].
  - destruct (resp_ok resp) eqn:Hok; simpl.
    + destruct (json resp) as [data|] eqn:Hjson; simpl.
      * left. eauto 10.
      * right. eexists. split; [reflexivity|]. intros name. discriminate.
    + right. eexists. split; [reflexivity|]. intros name. discriminate.
  - destruct e as [msg|msg|msg|msg];
      [|right; apply (Hexn (IndexError msg))
       |right; apply (Hexn (GraphRecursionError msg))
       |right; apply (Hexn (Exception msg))].
    right. eexists. split; [reflexivity|]. intros name. discriminate.
Qed.


(** ** The loop *)

Lemma should_continue_snoc (l : list BaseMessage) (m : BaseMessage) :
  should_continue {| messages := l ++ [m] |}
  = Ok (if calls_truthy (get_tool_calls m) then "continue_to_tools" else "end_graph").
Proof.
  unfold should_continue, list_last. simpl. rewrite last_snoc.
  unfold mbind, result_bind. destruct (calls_truthy _); reflexivity.
Qed.

Lemma next_target_agent_snoc (l : list BaseMessage) (m : BaseMessage) :
  next_target agent {| messages := l ++ [m] |}
  = Ok (if calls_truthy (get_tool_calls m) then To action else END).
Proof.
  unfold next_target. rewrite should_continue_snoc.
  destruct (calls_truthy _); reflexivity.
Qed.

Lemma graph_step_agent_ok (llm : LLM) (st : AgentState) content tool_calls :
  llm_with_tools = Some llm →
  llm (messages st) = Ok (content, tool_calls) →
  graph_step agent st
  = Ok (if calls_truthy (Some tool_calls) then To action else END,
        reducer st {| messages := [AIMessage content tool_calls] |}).
Proof.
  intros Hllm Hcall. unfold graph_step. simpl node_fn.
  rewrite (run_llm_some llm st Hllm), Hcall.
  cbn [mbind result_bind].
  change (reducer st {| messages := [AIMessage content tool_calls] |})
    with {| messages := messages st ++ [AIMessage content tool_calls] |}.
  rewrite next_target_agent_snoc. reflexivity.
Qed.

Lemma graph_step_agent_raise (llm : LLM) (st : AgentState) (e : pyexn) :
  llm_with_tools = Some llm →
  llm (messages st) = Raise e →
  graph_step agent st = Raise e.
Proof.
  intros Hllm Hcall. unfold graph_step. simpl node_fn.
  rewrite (run_llm_some llm st Hllm), Hcall. reflexivity.
Qed.

Lemma graph_step_action_update (st update : AgentState) :
  execute_tools st = Ok update →
  graph_step action st = Ok (To agent, reducer st update).
Proof. intros He. unfold graph_step. simpl node_fn. rewrite He. reflexivity. Qed.

(** When the graph reaches [END], the state ends with the provider's
    answer to the messages before it, an assistant turn without tool
    calls. *)
Lemma graph_run_ends_with_answer (llm : LLM) (limit : nat) :
  llm_with_tools = Some llm →
  ∀ n st st', graph_run limit n st = Ok st' →
    ∃ history content tool_calls,
      messages st' = (history ++ [AIMessage content tool_calls])
      ∧ llm history = Ok (content, tool_calls)
      ∧ calls_truthy (Some tool_calls) = false.
Proof.
  intros Hllm. induction limit as [|limit IH]; intros n st st'; simpl; [discriminate|].
  destruct n.
  - destruct (llm (messages st)) as [[content tool_calls]|e] eqn:Hcall.
    + rewrite (graph_step_agent_ok llm st _ _ Hllm Hcall).
      unfold mbind, result_bind.
      destruct (calls_truthy (Some tool_calls)) eqn:Ht.
      * apply IH.
      * intros [= <-]. exists (messages st), content, tool_calls. auto.
    + rewrite (graph_step_agent_raise llm st e Hllm Hcall). discriminate.
  - unfold mbind, result_bind.
    destruct (graph_step action st) as [[t st1]|e] eqn:Hstep; [|discriminate].
    unfold graph_step in Hstep. simpl in Hstep.
    destruct (execute_tools st) as [update|e]; simpl in Hstep; [|discriminate].
    injection Hstep as <- <-. apply IH.
Qed.

Lemma stops_at_call_pos (llm : LLM) (k : nat) (s s' : AgentState) :
  stops_at_call llm k s s' → (1 ≤ k)%nat.
Proof. destruct 1; lia. Qed.

Lemma stops_at_call_run (llm : LLM) (k : nat) (s s' : AgentState) :
  llm_with_tools = Some llm →
  stops_at_call llm k s s' →
  ∀ limit,
    ((2 * k - 1 ≤ limit)%nat → graph_run limit agent s = Ok s')
    ∧ ((limit < 2 * k - 1)%nat → graph_run limit agent s = Raise recursion_error).
Proof.
  intros Hllm Hstops.
  induction Hstops as [s content tool_calls Hcall Ht
                      |k s content tool_calls update s' Hcall Ht Hexec Hrest IH];
    intros limit.
  - split; intros Hlim.
    + destruct limit as [|limit]; [lia|]. simpl.
      rewrite (graph_step_agent_ok llm s _ _ Hllm Hcall), Ht. reflexivity.
    + replace limit with O by lia. reflexivity.
  - pose proof (stops_at_call_pos llm k _ _ Hrest) as Hk.
    split; intros Hlim.
    + destruct limit as [|[|limit]]; [lia|lia|]. simpl.
      rewrite (graph_step_agent_ok llm s _ _ Hllm Hcall), Ht.
      unfold mbind at 1, result_bind at 1.
      rewrite (graph_step_action_update _ update Hexec).
      unfold mbind at 1, result_bind at 1.
      apply (IH limit). lia.
    + destruct limit as [|[|limit]]; [reflexivity| |].
      * simpl. rewrite (graph_step_agent_ok llm s _ _ Hllm Hcall), Ht. reflexivity.
      * simpl. rewrite (graph_step_agent_ok llm s _ _ Hllm Hcall), Ht.
        unfold mbind at 1, result_bind at 1.
        rewrite (graph_step_action_update _ update Hexec).
        unfold mbind at 1, result_bind at 1.
        apply (IH limit). lia.
Qed.

Lemma never_stops_run (llm : LLM) :
  llm_with_tools = Some llm →
  never_stops llm →
  ∀ limit,
    (∀ s, graph_run limit agent s = Raise recursion_error)
    ∧ (∀ s m, last (messages s) = Some m →
              graph_run limit action s = Raise recursion_error).
Proof.
  intros Hllm Hnever.
  induction limit as [|limit [IHagent IHaction]]; [split; reflexivity|].
  split.
  - intros s. destruct (Hnever (messages s)) as (content & tool_calls & Hcall & Ht).
    simpl. rewrite (graph_step_agent_ok llm s _ _ Hllm Hcall), Ht.
    unfold mbind, result_bind.
    apply (IHaction _ (AIMessage content tool_calls)).
    simpl. apply last_snoc.
  - intros s m Hlast. simpl. rewrite (graph_step_action s m Hlast).
    unfold mbind, result_bind. apply IHagent.
Qed.

(** C1, as amended: when the provider asks for no tool at its [k]-th
    call of the run, the graph reaches [END] with that turn after
    [2k - 1] node executions, under every step budget of at least that
    many; under a smaller budget, and under every budget when the
    provider never stops asking for tools, the run ends with the
    runtime's recursion error, which the chat endpoint reports as an
    HTTP 500 error.  No turn is made up for it. *)
Theorem agent_loop_ends_with_the_provider (llm : LLM) :
  llm_with_tools = Some llm →
  (∀ k s s', stops_at_call llm k s s' →
     ∀ limit,
       ((2 * k - 1 ≤ limit)%nat → graph_run limit agent s = Ok s')
       ∧ ((limit < 2 * k - 1)%nat → graph_run limit agent s = Raise recursion_error))
  ∧ (never_stops llm →
       (∀ limit s, graph_run limit agent s = Raise recursion_error)
       ∧ ∀ message,
           chat_with_agent message
           = HTTPException 500 ("AI Agent Error: " +:+ exn_str recursion_error)).
Proof.
  intros Hllm. split.
  - intros k s s' Hstops. exact (stops_at_call_run llm k s s' Hllm Hstops).
  - intros Hnever. split.
    + intros limit s. exact (proj1 (never_stops_run llm Hllm Hnever limit) s).
    + intros message. unfold chat_with_agent, chat_body, graph_invoke.
      rewrite Hllm.
      rewrite (proj1 (never_stops_run llm Hllm Hnever recursion_limit)).
      reflexivity.
Qed.

(** ** The chat endpoint *)

Lemma chat_with_agent_ok (llm : LLM) (message : string) (final_state : AgentState) :
  llm_with_tools = Some llm →
  graph_invoke {| messages := [HumanMessage message] |} = Ok final_state →
  ∃ history content tool_calls,
    messages final_state = (history ++ [AIMessage content tool_calls])
    ∧ llm history = Ok (content, tool_calls)
    ∧ calls_truthy (Some tool_calls) = false
    ∧ chat_with_agent message = Returned content.
Proof.
  intros Hllm Hrun.
  destruct (graph_run_ends_with_answer llm _ Hllm _ _ _ Hrun)
    as (history & content & tool_calls & Hmsgs & Hcall & Ht).
  exists history, content, tool_calls.
  split; [exact Hmsgs|]. split; [exact Hcall|]. split; [exact Ht|].
  unfold chat_with_agent, chat_body. rewrite Hllm, Hrun.
  unfold mbind at 1, result_bind at 1. unfold list_last.
  rewrite Hmsgs, last_snoc. reflexivity.
Qed.

Lemma chat_with_agent_raise (llm : LLM) (message : string) (e : pyexn) :
  llm_with_tools = Some llm →
  graph_invoke {| messages := [HumanMessage message] |} = Raise e →
  chat_with_agent message = HTTPException 500 ("AI Agent Error: " +:+ exn_str e).
Proof.
  intros Hllm Hrun. unfold chat_with_agent, chat_body. rewrite Hllm, Hrun. reflexivity.
Qed.


(** ** Tool results and the requests they answer *)

Lemma tool_result_ids_app (l1 l2 : list BaseMessage) :
  tool_result_ids (l1 ++ l2) = (tool_result_ids l1 ++ tool_result_ids l2).
Proof. unfold tool_result_ids. apply omap_app. Qed.

Lemma tool_result_ids_new (cs : list ToolCall) :
  tool_result_ids (tool_message_of <$> cs) = tc_id <$> cs.
Proof.
  induction cs as [|c cs IH]; [reflexivity|].
  rewrite !fmap_cons.
  change (tool_result_ids (tool_message_of c :: (tool_message_of <$> cs)))
    with (tc_id c :: tool_result_ids (tool_message_of <$> cs)).
  rewrite IH. reflexivity.
Qed.

(** What [execute_tools] returns holds the results that were already in
    the conversation, and after them one result per request of the last
    turn, in request order. *)
Lemma execute_tools_result_ids (st : AgentState) (m : BaseMessage) :
  last (messages st) = Some m →
  ∃ update,
    execute_tools st = Ok update
    ∧ tool_result_ids (messages update)
      = (tool_result_ids (messages st) ++ (tc_id <$> requested m)).
Proof.
  intros Hlast. eexists. split; [exact (execute_tools_last st m Hlast)|].
  simpl. rewrite tool_result_ids_app, tool_result_ids_new. reflexivity.
Qed.
(** * Further properties of the agent *)

(** ** Health and chat *)

(** X1: the health endpoint reports ["error"] exactly when the chat
    endpoint answers 503, and ["ok"] otherwise. *)
Theorem health_reports_chat_availability (message : string) :
  (health_check !! "status" = Some (VStr "error")
   ↔ chat_with_agent message
     = HTTPException 503 "LLM backend is unavailable. Please ensure Ollama is running.")
  ∧ (health_check !! "status" = Some (VStr "ok")
     ↔ ∀ detail, chat_with_agent message ≠ HTTPException 503 detail).
Proof.
  unfold health_check, chat_with_agent.
  rewrite !lookup_insert_eq.
  destruct llm_with_tools as [llm|]; split; split; try discriminate; try reflexivity.
  - destruct (chat_body message); discriminate.
  - intros _ detail. destruct (chat_body message); discriminate.
  - intros H. exfalso. exact (H _ eq_refl).
Qed.

(** ** What makes a run fail *)

Lemma run_failure_cases (llm : LLM) (limit : nat) :
  llm_with_tools = Some llm →
  (∀ st e, graph_run limit agent st = Raise e →
     e = recursion_error
     ∨ ∃ history, messages st `prefix_of` history ∧ llm history = Raise e)
  ∧ (∀ st m e, last (messages st) = Some m →
       graph_run limit action st = Raise e →
       e = recursion_error
       ∨ ∃ history, messages st `prefix_of` history ∧ llm history = Raise e).
Proof.
  intros Hllm. induction limit as [|limit [IHagent IHaction]].
  - split; [intros st e|intros st m e _]; simpl; intros [= <-]; left; reflexivity.
  - split.
    + intros st e. simpl.
      destruct (llm (messages st)) as [[content tool_calls]|e'] eqn:Hcall.
      * rewrite (graph_step_agent_ok llm st _ _ Hllm Hcall).
        unfold mbind, result_bind.
        destruct (calls_truthy (Some tool_calls)); [|discriminate].
        intros Hrun.
        assert (Hlast : last (messages (reducer st
                          {| messages := [AIMessage content tool_calls] |}))
                        = Some (AIMessage content tool_calls))
          by (simpl; apply last_snoc).
        destruct (IHaction _ _ e Hlast Hrun)
          as [->|(history & Hpre & Hfail)]; [left; reflexivity|].
        right. exists history. split; [|exact Hfail].
        etrans; [|exact Hpre]. apply prefix_app_r. reflexivity.
      * rewrite (graph_step_agent_raise llm st e' Hllm Hcall).
        intros [= <-]. right. exists (messages st). split; [reflexivity|exact Hcall].
    + intros st m e Hlast. simpl. rewrite (graph_step_action st m Hlast).
      unfold mbind, result_bind. intros Hrun.
      destruct (IHagent _ e Hrun) as [->|(history & Hpre & Hfail)]; [left; reflexivity|].
      right. exists history. split; [|exact Hfail].
      etrans; [|exact Hpre]. apply prefix_app_r. reflexivity.
Qed.

(** X2: a run started in the agent node fails only in two ways: the step
    budget is used up, or the Decision Provider itself raised, on a
    history that extends the initial messages.  Tool execution never
    fails a run. *)
Theorem run_fails_only_by_provider_or_budget
    (llm : LLM) (limit : nat) (st : AgentState) (e : pyexn) :
  llm_with_tools = Some llm →
  graph_run limit agent st = Raise e →
  e = recursion_error
  ∨ ∃ history, messages st `prefix_of` history ∧ llm history = Raise e.
Proof.
  intros Hllm. exact (proj1 (run_failure_cases llm limit Hllm) st e).
Qed.

(** ** Growth of the history *)

Lemma calls_truthy_length (tcs : tool_calls_t) :
  calls_truthy (Some tcs) = true → (1 ≤ length (calls_iterable tcs))%nat.
Proof.
  unfold calls_truthy. destruct (calls_iterable tcs); simpl; [discriminate|lia].
Qed.

(** X3: every tool round at least doubles the history.  When the
    provider stops at its [k]-th call, the final state has at least
    [2^(k-1) * (n + 3) - 2] messages, [n] being the number of messages
    the run started with. *)
Theorem history_doubles_every_round
    (llm : LLM) (k : nat) (s s' : AgentState) :
  stops_at_call llm k s s' →
  (2 ^ (k - 1) * (length (messages s) + 3) ≤ length (messages s') + 2)%nat.
Proof.
  induction 1 as [s content tool_calls Hcall Ht
                 |k s content tool_calls update s' Hcall Ht Hexec Hrest IH].
  - simpl. rewrite length_app. simpl. lia.
  - pose proof (stops_at_call_pos llm k _ _ Hrest) as Hk.
    pose proof (calls_truthy_length tool_calls Ht) as Hlen.
    rewrite (execute_tools_last _ (AIMessage content tool_calls)) in Hexec
      by (simpl; apply last_snoc).
    injection Hexec as <-.
    revert IH. simpl messages. rewrite !length_app, length_fmap. simpl length.
    unfold requested. simpl.
    replace (k - 0)%nat with (S (k - 1)) by lia.
    rewrite Nat.pow_succ_r'. nia.
Qed.

(** ** The new tool messages *)


(** ** Responses that are not JSON *)

Lemma substring_0_length (n : nat) (s : string) :
  String.length (String.substring 0 n s) = Nat.min n (String.length s).
Proof.
  revert s. induction n as [|n IH]; intros [|c s]; simpl; try reflexivity.
  rewrite IH. reflexivity.
Qed.

Lemma substring_0_prefix (n : nat) (s : string) :
  String.prefix (String.substring 0 n s) s = true.
Proof.
  revert s. induction n as [|n IH]; intros [|c s]; simpl; try reflexivity.
  destruct (Ascii.ascii_dec c c) as [_|Hne]; [apply IH|congruence].
Qed.

(** X6: when the server answers with a success status and a body that is
    not JSON, the tool returns a failure payload that quotes the body cut
    to its first 200 characters. *)
Theorem non_json_response_is_quoted_cut (resp : response) :
  resp_ok resp = true →
  json resp = None →
  ∃ shown,
    handle_post (Ok resp)
    = Ok (failure ("MCP server returned non-JSON response: " +:+ shown))
    ∧ String.length shown = Nat.min 200 (String.length (text resp))
    ∧ String.prefix shown (text resp) = true.
Proof.
  intros Hok Hjson. exists (String.substring 0 200 (text resp)).
  split; [|split].
  - unfold handle_post. rewrite Hok, Hjson. reflexivity.
  - apply substring_0_length.
  - apply substring_0_prefix.
Qed.

End Agent.


(** ** Argument normalisation *)

Lemma normalize_kwargs_dict (kwargs inner : dict) :
  kwargs !! "kwargs" = Some (VDict inner) → normalize kwargs = inner.
Proof. unfold normalize. intros ->. reflexivity. Qed.

Lemma normalize_flat (m : dict) :
  (∀ d, m !! "kwargs" ≠ Some (VDict d)) → normalize m = m.
Proof.
  intros Hflat. unfold normalize.
  destruct (m !! "kwargs") as [[| | | | |d]|] eqn:E; try reflexivity.
  exfalso. exact (Hflat d eq_refl).
Qed.

Lemma normalize_insert_kwargs (siblings inner : dict) :
  normalize (<["kwargs" := VDict inner]> siblings) = inner.
Proof. apply normalize_kwargs_dict. apply lookup_insert_eq. Qed.

Lemma normalize_wrapper (inner : dict) :
  normalize {[ "kwargs" := VDict inner ]} = inner.
Proof. apply normalize_kwargs_dict. apply lookup_singleton_eq. Qed.

(** C6, as amended: a mapping without a ["kwargs"] key bound to a mapping
    is left as it is; the wrapper around any mapping yields that mapping;
    normalising twice is the same as normalising once on such a flat
    mapping and on the wrapper around one. *)
Theorem normalize_idempotent_on_flat (m inner : dict) :
  (∀ d, m !! "kwargs" ≠ Some (VDict d)) →
  normalize m = m
  ∧ normalize {[ "kwargs" := VDict inner ]} = inner
  ∧ normalize (normalize m) = normalize m
  ∧ normalize (normalize {[ "kwargs" := VDict m ]}) = normalize {[ "kwargs" := VDict m ]}.
Proof.
  intros Hflat.
  pose proof (normalize_flat m Hflat) as Hm.
  split; [|split; [|split]].
  - exact Hm.
  - apply normalize_wrapper.
  - rewrite Hm. exact Hm.
  - rewrite normalize_wrapper. exact Hm.
Qed.

Lemma normalize_idempotent_on_flat_witness :
  normalize Demo.flat_kwargs = Demo.flat_kwargs
  ∧ normalize {[ "kwargs" := VDict Demo.flat_kwargs ]} = Demo.flat_kwargs
  ∧ normalize (normalize Demo.flat_kwargs) = normalize Demo.flat_kwargs
  ∧ normalize (normalize {[ "kwargs" := VDict Demo.flat_kwargs ]})
    = normalize {[ "kwargs" := VDict Demo.flat_kwargs ]}.
Proof.
  apply (normalize_idempotent_on_flat Demo.flat_kwargs Demo.flat_kwargs).
  intros d. vm_compute. discriminate.
Defined.

(** C6, as stated, fails twice: a two-key mapping is not a single-key
    wrapper, yet normalisation changes it; and on the wrapper around a
    wrapper, normalising twice differs from normalising once. *)
Lemma normalize_idempotent_counterexample :
  (¬ single_key_wrapper Demo.kwargs_with_sibling
   ∧ normalize Demo.kwargs_with_sibling ≠ Demo.kwargs_with_sibling)
  ∧ (Demo.nested_kwargs
       = {[ "kwargs" := VDict {[ "kwargs" := VDict {[ "title" := VStr "Meeting" ]} ]} ]}
     ∧ normalize (normalize Demo.nested_kwargs) ≠ normalize Demo.nested_kwargs).
Proof.
  split; [split|split].
  - intros (k & inner & E).
    apply (f_equal size) in E. rewrite map_size_singleton in E.
    vm_compute in E. discriminate E.
  - intros E. apply (f_equal (λ m : dict, m !! "location")) in E.
    vm_compute in E. discriminate E.
  - reflexivity.
  - intros E. apply (f_equal (λ m : dict, m !! "title")) in E.
    vm_compute in E. discriminate E.
Qed.

(** C9: the value under the literal key ["kwargs"], when it is a mapping,
    becomes the arguments whatever other keys stand beside it; a wrapper
    under any other key is left alone; and a ["kwargs"] key inside the
    inner mapping stays there as an ordinary argument. *)
Theorem normalize_unwraps_literal_kwargs_once
    (siblings inner : dict) (k : string) (v : pyval) :
  k ≠ "kwargs" →
  normalize (<["kwargs" := VDict inner]> siblings) = inner
  ∧ normalize {[ k := VDict inner ]} = {[ k := VDict inner ]}
  ∧ normalize (<["kwargs" := VDict (<["kwargs" := v]> inner)]> siblings) !! "kwargs"
    = Some v.
Proof.
  intros Hk. split; [|split].
  - apply normalize_insert_kwargs.
  - apply normalize_flat. intros d.
    rewrite lookup_singleton_ne by exact Hk. discriminate.
  - rewrite normalize_insert_kwargs. apply lookup_insert_eq.
Qed.

Lemma normalize_unwraps_literal_kwargs_once_witness :
  normalize (<["kwargs" := VDict Demo.flat_kwargs]> Demo.flat_kwargs) = Demo.flat_kwargs
  ∧ normalize {[ "args" := VDict Demo.flat_kwargs ]} = {[ "args" := VDict Demo.flat_kwargs ]}
  ∧ normalize (<["kwargs" := VDict (<["kwargs" := VInt 1]> Demo.flat_kwargs)]> Demo.flat_kwargs)
      !! "kwargs" = Some (VInt 1).
Proof.
  apply (normalize_unwraps_literal_kwargs_once
           Demo.flat_kwargs Demo.flat_kwargs "args" (VInt 1)).
  vm_compute. discriminate.
Defined.

(** * The properties on concrete runs *)


Lemma graph_step_appends_witness :
  messages Demo.asked
    `prefix_of` (messages Demo.asked ++ (messages Demo.asked ++ [Demo.result_1]))
  ∧ ∀ i m,
      messages Demo.asked !! i = Some m →
      (messages Demo.asked ++ (messages Demo.asked ++ [Demo.result_1])) !! i = Some m.
Proof.
  apply (graph_step_appends
           Demo.url Demo.server_post Demo.input_error (Some Demo.llm_two_rounds)
           action Demo.asked (To agent)
           {| messages := messages Demo.asked ++ (messages Demo.asked ++ [Demo.result_1]) |}).
  vm_compute. reflexivity.
Defined.

Lemma handler_exceptions_become_content_witness :
  ∃ tool_messages,
    execute_tools Demo.url Demo.offline_post Demo.input_error Demo.asked
    = Ok {| messages := messages Demo.asked ++ tool_messages |}
    ∧ graph_step Demo.url Demo.offline_post Demo.input_error (Some Demo.llm_two_rounds)
        action Demo.asked
      = Ok (To agent,
            {| messages := messages Demo.asked ++ (messages Demo.asked ++ tool_messages) |})
    ∧ ToolMessage (call_output Demo.url Demo.offline_post Demo.input_error Demo.call_1)
        (tc_id Demo.call_1) ∈ tool_messages
    ∧ (∀ e,
          mcp_calendar_tool_invoke Demo.url Demo.offline_post Demo.input_error
            (call_args Demo.call_1) = Raise e →
          call_output Demo.url Demo.offline_post Demo.input_error Demo.call_1
          = failure ("Error executing mcp_calendar_tool: " +:+ exn_str e))
    ∧ (∀ d tool_name msg,
          call_args Demo.call_1 = VDict d →
          d !! "tool_name" = Some (VStr tool_name) →
          Demo.offline_post (Demo.url +:+ "/mcp/call")
            (call_body (mcp_tool_id_of tool_name) (normalize (delete "tool_name" d)))
          = Raise (RequestException msg) →
          call_output Demo.url Demo.offline_post Demo.input_error Demo.call_1
          = failure ("Error communicating with MCP Server: " +:+ msg))
    ∧ (∀ d tool_name resp,
          call_args Demo.call_1 = VDict d →
          d !! "tool_name" = Some (VStr tool_name) →
          Demo.offline_post (Demo.url +:+ "/mcp/call")
            (call_body (mcp_tool_id_of tool_name) (normalize (delete "tool_name" d)))
          = Ok resp →
          resp_ok resp = false →
          call_output Demo.url Demo.offline_post Demo.input_error Demo.call_1
          = failure ("MCP server returned " +:+ pretty (status_code resp)
                     +:+ ": " +:+ text resp)).
Proof.
  apply (handler_exceptions_become_content
           Demo.url Demo.offline_post Demo.input_error (Some Demo.llm_two_rounds)
           Demo.asked (AIMessage EmptyString (CallsList [Demo.call_1])) Demo.call_1).
  - reflexivity.
  - apply list_elem_of_here.
  - reflexivity.
Defined.

(** With the server down, the first call of the demo run comes back as a
    failure payload with the text of the network error. *)
Example offline_call_output :
  call_output Demo.url Demo.offline_post Demo.input_error Demo.call_1
  = failure "Error communicating with MCP Server: connection refused".
Proof. vm_compute. reflexivity. Qed.

Lemma unknown_tool_is_reported_and_loop_continues_witness :
  (tc_name Demo.call_bogus ≠ Some mcp_calendar_tool_name →
   call_output Demo.url Demo.server_post Demo.input_error Demo.call_bogus
   = failure (unknown_tool_error (tc_name Demo.call_bogus)))
  ∧ (∀ d tool_name,
        tc_name Demo.call_bogus = Some mcp_calendar_tool_name →
        call_args Demo.call_bogus = VDict d →
        d !! "tool_name" = Some (VStr tool_name) →
        TOOL_NAME_MAP !! tool_name = None →
        call_output Demo.url Demo.server_post Demo.input_error Demo.call_bogus
        = catch_tool_error
            (handle_post
               (Demo.server_post (Demo.url +:+ "/mcp/call")
                  (call_body tool_name (normalize (delete "tool_name" d))))))
  ∧ ∃ st',
      graph_step Demo.url Demo.server_post Demo.input_error (Some Demo.llm_two_rounds)
        action Demo.asked_unknown = Ok (To agent, st')
      ∧ ToolMessage (call_output Demo.url Demo.server_post Demo.input_error Demo.call_bogus)
          (tc_id Demo.call_bogus) ∈ messages st'
      ∧ ∀ llm, Some Demo.llm_two_rounds = Some llm →
          run_llm (Some Demo.llm_two_rounds) st'
          = llm (messages st') ≫= λ '(content', tool_calls'),
              Ok {| messages := [AIMessage content' tool_calls'] |}.
Proof.
  apply (unknown_tool_is_reported_and_loop_continues
           Demo.url Demo.server_post Demo.input_error (Some Demo.llm_two_rounds)
           Demo.asked_unknown EmptyString
           (CallsList [Demo.call_foo; Demo.call_bogus]) Demo.call_bogus).
  - reflexivity.
  - apply list_elem_of_further, list_elem_of_here.
Defined.

(** C4, as stated, fails: the proxy tool called with a name outside the
    alias table comes back with the server's 400 response, not with an
    unknown-tool error; and the executor's own text for a tool it does not
    know goes on with [requested.] after the quoted name. *)
Lemma unknown_tool_counterexample :
  (TOOL_NAME_MAP !! "bogus" = None
   ∧ call_output Demo.url Demo.server_post Demo.input_error Demo.call_bogus
     = failure ("MCP server returned 400: "
                +:+ Demo.json_dumps (VDict {[ "detail" := VStr "Unknown tool: bogus" ]}))
   ∧ call_output Demo.url Demo.server_post Demo.input_error Demo.call_bogus
     ≠ failure "Unknown tool 'bogus'"
   ∧ call_output Demo.url Demo.server_post Demo.input_error Demo.call_bogus
     ≠ failure "Unknown tool 'bogus' requested.")
  ∧ (call_output Demo.url Demo.server_post Demo.input_error Demo.call_foo
     = failure "Unknown tool 'foo' requested."
     ∧ call_output Demo.url Demo.server_post Demo.input_error Demo.call_foo
       ≠ failure "Unknown tool 'foo'").
Proof.
  assert (Hne : ∀ v a b, v = failure a → a ≠ b → v ≠ failure b).
  { intros v a b -> Hab E. exact (Hab (failure_inj a b E)). }
  assert (Hbogus :
    call_output Demo.url Demo.server_post Demo.input_error Demo.call_bogus
    = failure ("MCP server returned 400: "
               +:+ Demo.json_dumps (VDict {[ "detail" := VStr "Unknown tool: bogus" ]})))
    by (vm_compute; reflexivity).
  assert (Hfoo :
    call_output Demo.url Demo.server_post Demo.input_error Demo.call_foo
    = failure "Unknown tool 'foo' requested.")
    by (vm_compute; reflexivity).
  split; [split; [|split; [|split]]|split].
  - reflexivity.
  - exact Hbogus.
  - apply (Hne _ _ _ Hbogus). vm_compute. discriminate.
  - apply (Hne _ _ _ Hbogus). vm_compute. discriminate.
  - exact Hfoo.
  - apply (Hne _ _ _ Hfoo). discriminate.
Qed.


Lemma never_stops_always_tool : never_stops Demo.llm_always_tool.
Proof. intros history. exists EmptyString, (CallsList [Demo.call_1]). split; reflexivity. Qed.

(** The demo run in which the model answers at its third call. *)
Lemma two_rounds_stop_at_third_call :
  ∃ s', stops_at_call Demo.url Demo.server_post Demo.input_error
          Demo.llm_two_rounds 3 Demo.seed s'.
Proof.
  eexists.
  eapply stops_later; [reflexivity|reflexivity|reflexivity|].
  eapply stops_later; [reflexivity|reflexivity|reflexivity|].
  eapply stops_now; reflexivity.
Defined.

Lemma agent_loop_ends_with_the_provider_witness :
  (∃ s',
      stops_at_call Demo.url Demo.server_post Demo.input_error Demo.llm_two_rounds 3 Demo.seed s'
      ∧ graph_run Demo.url Demo.server_post Demo.input_error (Some Demo.llm_two_rounds)
          5 agent Demo.seed = Ok s'
      ∧ graph_run Demo.url Demo.server_post Demo.input_error (Some Demo.llm_two_rounds)
          4 agent Demo.seed = Raise recursion_error)
  ∧ (∀ limit s,
        graph_run Demo.url Demo.server_post Demo.input_error (Some Demo.llm_always_tool)
          limit agent s = Raise recursion_error).
Proof.
  split.
  - destruct two_rounds_stop_at_third_call as [s' Hstops].
    exists s'. split; [exact Hstops|].
    pose proof (proj1 (agent_loop_ends_with_the_provider
                         Demo.url Demo.server_post Demo.input_error
                         (Some Demo.llm_two_rounds) Demo.message_str 25%nat
                         Demo.llm_two_rounds eq_refl) 3%nat Demo.seed s' Hstops) as Hrun.
    split.
    + apply (proj1 (Hrun 5%nat)). simpl. lia.
    + apply (proj2 (Hrun 4%nat)). simpl. lia.
  - exact (proj1 (proj2 (agent_loop_ends_with_the_provider
                           Demo.url Demo.server_post Demo.input_error
                           (Some Demo.llm_always_tool) Demo.message_str 25%nat
                           Demo.llm_always_tool eq_refl)
                        never_stops_always_tool)).
Defined.

(** C1, as stated, fails: with a model that asks for a tool at every
    call, no step budget lets the graph reach [END], and under a budget of
    25 the chat endpoint answers with an HTTP 500 error, not with an
    assistant turn. *)
Lemma iteration_cap_counterexample :
  never_stops Demo.llm_always_tool
  ∧ (∀ limit final_state,
        graph_run Demo.url Demo.server_post Demo.input_error (Some Demo.llm_always_tool)
          limit agent Demo.seed ≠ Ok final_state)
  ∧ graph_invoke Demo.url Demo.server_post Demo.input_error (Some Demo.llm_always_tool)
      25 Demo.seed = Raise recursion_error
  ∧ chat_with_agent Demo.url Demo.server_post Demo.input_error (Some Demo.llm_always_tool)
      Demo.message_str 25 "Schedule a meeting"
    = HTTPException 500
        "AI Agent Error: Recursion limit reached without hitting a stop condition".
Proof.
  pose proof (never_stops_run Demo.url Demo.server_post Demo.input_error
                (Some Demo.llm_always_tool) Demo.llm_always_tool eq_refl
                never_stops_always_tool) as Hrun.
  split; [exact never_stops_always_tool|]. split; [|split].
  - intros limit final_state. rewrite (proj1 (Hrun limit)). discriminate.
  - unfold graph_invoke. apply (proj1 (Hrun 25%nat)).
  - unfold chat_with_agent, chat_body, graph_invoke.
    rewrite (proj1 (Hrun 25%nat)). reflexivity.
Qed.



(** The demo conversation ends with the model's answer. *)
Example chat_two_rounds :
  chat_with_agent Demo.url Demo.server_post Demo.input_error (Some Demo.llm_two_rounds)
    Demo.message_str 25 "Schedule a meeting"
  = Returned "Scheduled your meeting.".
Proof. vm_compute. reflexivity. Qed.

(** ** The second tool round *)

(** C2 at the demo run, where the model asks for one tool in each of two
    consecutive turns.  The second tool round starts after three node
    executions; the second assistant turn holds one request, [call_2];
    what the node returns for it holds two tool results, the first of
    them the result of [call_1] from the turn before. *)
Theorem second_round_returns_old_result :
  graph_steps Demo.url Demo.server_post Demo.input_error (Some Demo.llm_two_rounds)
    3 agent Demo.seed = Ok (To action, Demo.second_round)
  ∧ last (messages Demo.second_round)
    = Some (AIMessage EmptyString (CallsList [Demo.call_2]))
  ∧ ∃ update,
      execute_tools Demo.url Demo.server_post Demo.input_error Demo.second_round
      = Ok update
      ∧ length (messages update) = 7%nat
      ∧ tool_result_ids (messages update) = [Some "call_1"; Some "call_2"]
      ∧ tc_id <$> [Demo.call_2] = [Some "call_2"].
Proof.
  split; [vm_compute; reflexivity|]. split; [reflexivity|].
  destruct (execute_tools_result_ids Demo.url Demo.server_post Demo.input_error
              Demo.second_round _ eq_refl) as (update & Hexec & Hids).
  exists update. split; [exact Hexec|].
  rewrite (execute_tools_last Demo.url Demo.server_post Demo.input_error
             Demo.second_round _ eq_refl) in Hexec.
  injection Hexec as <-.
  split; [reflexivity|]. split; reflexivity.
Qed.

(** * The event store *)

Section StoreProperties.
Import CalendarServer.
Context {datetime : Type}.
Variable fromisoformat : string → option datetime.
Variable strptime : string → option datetime.
Variable google_update : string → Event datetime → option string.
Variable google_insert : Event datetime → option string.

Local Abbreviation parse := (parse_datetime fromisoformat strptime).
Local Abbreviation sync := (sync_to_google_calendar google_update google_insert).
Local Abbreviation create := (create_event fromisoformat strptime google_update google_insert).
Local Abbreviation update := (update_event fromisoformat strptime).
Local Abbreviation sync_rest := (sync_event_to_google google_update google_insert).

Implicit Types (db : events_db datetime) (e event : Event datetime) (k : string).

(** ** The dict operations *)

Lemma db_get_set_eq k e db : db_get k (db_set k e db) = Some e.
Proof.
  induction db as [|[k' e'] db IH]; simpl.
  - rewrite decide_True by reflexivity. reflexivity.
  - destruct (decide (k' = k)) as [->|Hne]; simpl.
    + rewrite decide_True by reflexivity. reflexivity.
    + rewrite decide_False by exact Hne. exact IH.
Qed.

Lemma db_get_set_ne k k' e db : k ≠ k' → db_get k' (db_set k e db) = db_get k' db.
Proof.
  intros Hkk. induction db as [|[k0 e0] db IH]; simpl.
  - rewrite decide_False by exact Hkk. reflexivity.
  - destruct (decide (k0 = k)) as [->|Hne]; simpl.
    + rewrite !decide_False by exact Hkk. reflexivity.
    + destruct (decide (k0 = k')); [reflexivity|exact IH].
Qed.

Lemma db_get_del_eq k db : db_get k (db_del k db) = None.
Proof.
  induction db as [|[k' e'] db IH]; simpl; [reflexivity|].
  destruct (decide (k' = k)) as [->|Hne]; simpl; [exact IH|].
  rewrite decide_False by exact Hne. exact IH.
Qed.

Lemma db_get_del_ne k k' db : k ≠ k' → db_get k' (db_del k db) = db_get k' db.
Proof.
  intros Hkk. induction db as [|[k0 e0] db IH]; simpl; [reflexivity|].
  destruct (decide (k0 = k)) as [->|Hne]; simpl.
  - rewrite decide_False by exact Hkk. exact IH.
  - destruct (decide (k0 = k')); [reflexivity|exact IH].
Qed.

Lemma db_set_same k e db : db_get k db = Some e → db_set k e db = db.
Proof.
  induction db as [|[k' e'] db IH]; simpl; [discriminate|].
  destruct (decide (k' = k)) as [->|Hne].
  - intros [= ->]. reflexivity.
  - intros H. rewrite (IH H). reflexivity.
Qed.

Lemma db_set_set k e e' db : db_set k e' (db_set k e db) = db_set k e' db.
Proof.
  induction db as [|[k0 e0] db IH]; simpl.
  - rewrite decide_True by reflexivity. reflexivity.
  - destruct (decide (k0 = k)) as [->|Hne]; simpl.
    + rewrite decide_True by reflexivity. reflexivity.
    + rewrite decide_False by exact Hne. rewrite IH. reflexivity.
Qed.

Lemma db_set_fresh k e db : db_get k db = None → db_set k e db = db ++ [(k, e)].
Proof.
  induction db as [|[k' e'] db IH]; simpl; [reflexivity|].
  destruct (decide (k' = k)) as [->|Hne]; [discriminate|].
  intros H. rewrite (IH H). reflexivity.
Qed.

Lemma db_set_keys k e e0 db :
  db_get k db = Some e0 → fst <$> db_set k e db = fst <$> db.
Proof.
  induction db as [|[k' e'] db IH]; cbn [db_get db_set]; [discriminate|].
  destruct (decide (k' = k)) as [->|Hne]; rewrite !fmap_cons.
  - reflexivity.
  - intros H. rewrite (IH H). reflexivity.
Qed.

Lemma db_get_None_keys k db : db_get k db = None → k ∉ fst <$> db.
Proof.
  induction db as [|[k' e'] db IH]; simpl.
  - intros _. apply not_elem_of_nil.
  - destruct (decide (k' = k)) as [->|Hne]; [discriminate|].
    intros H. apply not_elem_of_cons. split; [congruence|exact (IH H)].
Qed.

Lemma db_ok_set k e db : db_ok db → db_ok (db_set k e db).
Proof.
  unfold db_ok. intros Hok.
  destruct (db_get k db) as [e0|] eqn:Hget.
  - rewrite (db_set_keys k e e0 db Hget). exact Hok.
  - rewrite (db_set_fresh k e db Hget), fmap_app. simpl.
    apply NoDup_app. split; [exact Hok|]. split.
    + intros x Hx Hin. apply list_elem_of_singleton in Hin as ->.
      exact (db_get_None_keys k db Hget Hx).
    + apply NoDup_singleton.
Qed.

Lemma db_del_keys_subset k k' db : k' ∈ fst <$> db_del k db → k' ∈ fst <$> db.
Proof.
  induction db as [|[k0 e0] db IH]; simpl; [intros H; exact H|].
  destruct (decide (k0 = k)) as [->|Hne]; simpl.
  - intros H. apply elem_of_cons. right. exact (IH H).
  - rewrite !elem_of_cons. intros [->|H]; [left; reflexivity|right; exact (IH H)].
Qed.

Lemma db_ok_del k db : db_ok db → db_ok (db_del k db).
Proof.
  unfold db_ok. induction db as [|[k0 e0] db IH]; simpl; [intros H; exact H|].
  rewrite NoDup_cons. intros [Hnotin Hok].
  destruct (decide (k0 = k)) as [->|Hne]; simpl; [exact (IH Hok)|].
  apply NoDup_cons. split; [|exact (IH Hok)].
  intros Hin. exact (Hnotin (db_del_keys_subset k k0 db Hin)).
Qed.

Lemma keyed_by_id_set k e db :
  ev_id e = k → keyed_by_id db → keyed_by_id (db_set k e db).
Proof.
  intros Hid Hkeyed k' e'. destruct (decide (k = k')) as [<-|Hne].
  - rewrite db_get_set_eq. intros [= <-]. exact Hid.
  - rewrite (db_get_set_ne k k' e db Hne). apply Hkeyed.
Qed.

Lemma keyed_by_id_del k db : keyed_by_id db → keyed_by_id (db_del k db).
Proof.
  intros Hkeyed k' e'. destruct (decide (k = k')) as [<-|Hne].
  - rewrite db_get_del_eq. discriminate.
  - rewrite (db_get_del_ne k k' db Hne). apply Hkeyed.
Qed.

(** ** Parsing times *)

Lemma replace_Z_chars (s : string) :
  Ascii.ascii_of_nat 90 ∉ String.list_ascii_of_string (replace_Z s).
Proof.
  induction s as [|c s IH]; simpl; [apply not_elem_of_nil|].
  destruct (Ascii.eqb c (Ascii.ascii_of_nat 90)) eqn:E; simpl.
  - rewrite !not_elem_of_cons. repeat (split; [discriminate|]). exact IH.
  - apply not_elem_of_cons. split; [|exact IH].
    intros <-. rewrite Ascii.eqb_refl in E. discriminate.
Qed.

Lemma replace_Z_id (s : string) :
  Ascii.ascii_of_nat 90 ∉ String.list_ascii_of_string s → replace_Z s = s.
Proof.
  induction s as [|c s IH]; simpl; [reflexivity|].
  rewrite not_elem_of_cons. intros [Hc Hs].
  destruct (Ascii.eqb_spec c (Ascii.ascii_of_nat 90)) as [->|_]; [congruence|].
  rewrite (IH Hs). reflexivity.
Qed.

(** X8: the string [parse_datetime] hands to the ISO parser never holds
    a [Z]; an input without [Z] is handed over as it is, and the second
    parser always gets the input as it is; parsing fails only when both
    parsers fail. *)
Theorem parse_datetime_replaces_Z (dt_str : string) :
  (Ascii.ascii_of_nat 90 ∉ String.list_ascii_of_string (replace_Z dt_str))
  ∧ (Ascii.ascii_of_nat 90 ∉ String.list_ascii_of_string dt_str →
     parse dt_str
     = match fromisoformat dt_str with Some d => Some d | None => strptime dt_str end)
  ∧ (parse dt_str = None
     ↔ (fromisoformat (replace_Z dt_str) = None ∧ strptime dt_str = None)).
Proof.
  split; [apply replace_Z_chars|]. split.
  - intros HnoZ. unfold parse_datetime. rewrite (replace_Z_id dt_str HnoZ). reflexivity.
  - unfold parse_datetime. destruct (fromisoformat (replace_Z dt_str)); split.
    + discriminate.
    + intros [H _]. discriminate H.
    + intros H. split; [reflexivity|exact H].
    + intros [_ H]. exact H.
Qed.

(** ** Creating and reading *)

Lemma create_event_parsed event_id now request db start finish :
  parse (cr_start_time request) = Some start →
  parse (cr_end_time request) = Some finish →
  ∃ google_event_id,
    let event :=
      mkEvent event_id (cr_title request) (cr_description request) start finish
        (cr_location request) (cr_attendees request) (cr_color request)
        now false google_event_id (cr_notify_attendees request) in
    create event_id now request db
    = mkReply (Done event) (db_set event_id event db) (notify_all event "invitation")
    ∧ (cr_sync_to_google request = false → google_event_id = None).
Proof.
  intros Hs Hf. unfold create_event. rewrite Hs, Hf.
  destruct (cr_sync_to_google request).
  - destruct (nonempty (sync _)) eqn:Hn.
    + eexists (Some _). split; [|discriminate].
      cbn zeta. rewrite db_set_set. reflexivity.
    + exists None. split; [reflexivity|discriminate].
  - exists None. split; [reflexivity|reflexivity].
Qed.


(** X10: a [POST /events] with a start or end time that neither parser
    accepts fails, stores nothing and schedules no email. *)
Theorem create_event_bad_time event_id now request db :
  parse (cr_start_time request) = None ∨ parse (cr_end_time request) = None →
  create event_id now request db = mkReply Crashed db [].
Proof.
  unfold create_event. intros [H|H].
  - rewrite H. reflexivity.
  - rewrite H. destruct (parse (cr_start_time request)); reflexivity.
Qed.

(** ** Deleting *)

(** X11: deleting a stored event answers success, schedules the
    cancellation emails of that event, and removes it: reading or deleting
    the id again answers 404, the other ids are untouched.  Deleting an
    unknown id answers 404 and changes nothing. *)
Theorem delete_event_removes event_id db :
  match db_get event_id db with
  | Some event =>
      result_of (delete_event event_id db) = Done (VDict {[ "success" := VBool true ]})
      ∧ scheduled (delete_event event_id db) = notify_all event "cancellation"
      ∧ get_event event_id (db_after (delete_event event_id db))
        = Raised 404 "Event not found"
      ∧ result_of (delete_event event_id (db_after (delete_event event_id db)))
        = Raised 404 "Event not found"
      ∧ ∀ k, k ≠ event_id →
          get_event k (db_after (delete_event event_id db)) = get_event k db
  | None =>
      delete_event event_id db = mkReply (Raised 404 "Event not found") db []
  end.
Proof.
  unfold delete_event, get_event.
  destruct (db_get event_id db) as [event|] eqn:Hget; [|reflexivity].
  simpl. rewrite db_get_del_eq.
  split; [reflexivity|]. split; [reflexivity|]. split; [reflexivity|].
  split; [reflexivity|].
  intros k Hk. rewrite db_get_del_ne by congruence. reflexivity.
Qed.

(** ** Updating *)

(** X12: an update that sets no field leaves the store as it is and
    answers with the event unchanged, and still schedules an update email
    for every attendee of an event that notifies. *)
Theorem empty_update_still_notifies event_id db event :
  db_get event_id db = Some event →
  update event_id empty_update db
  = mkReply (Done event) db (notify_all event "update")
  ∧ (ev_notify_attendees event = true →
     scheduled (update event_id empty_update db)
     = (λ a, mkTask event (VStr a) "update") <$> ev_attendees event).
Proof.
  intros Hget.
  assert (Hupd : update event_id empty_update db
                 = mkReply (Done event) db (notify_all event "update")).
  { unfold update_event. rewrite Hget. simpl.
    rewrite (db_set_same _ _ _ Hget). reflexivity. }
  split; [exact Hupd|].
  intros Hnotify. rewrite Hupd. simpl. unfold notify_all. rewrite Hnotify.
  destruct (ev_attendees event); reflexivity.
Qed.

(** X13: an update is not atomic: when its start time does not parse,
    the request fails, yet the new title and description are already
    stored. *)
Theorem update_event_bad_start_keeps_title event_id request db event s :
  db_get event_id db = Some event →
  up_start_time request = Some s →
  parse s = None →
  result_of (update event_id request db) = Crashed
  ∧ scheduled (update event_id request db) = []
  ∧ ∃ stored,
      db_get event_id (db_after (update event_id request db)) = Some stored
      ∧ (∀ t, up_title request = Some t → ev_title stored = t)
      ∧ (∀ d, up_description request = Some d → ev_description stored = Some d)
      ∧ ev_start_time stored = ev_start_time event.
Proof.
  intros Hget Hs Hparse. unfold update_event. rewrite Hget, Hs. simpl.
  rewrite Hparse. simpl. split; [reflexivity|]. split; [reflexivity|].
  eexists. split; [apply db_get_set_eq|].
  split; [|split].
  - intros t Ht. rewrite Ht. destruct (up_description request); reflexivity.
  - intros d Hd. rewrite Hd. reflexivity.
  - destruct (up_title request), (up_description request); reflexivity.
Qed.

Lemma assign_identity {A} (field : option A) (set : A → Event datetime → Event datetime)
    (P : Event datetime → Prop) (e : Event datetime) :
  (∀ v e', P e' → P (set v e')) → P e → P (assign field set e).
Proof. intros Hset He. destruct field; simpl; auto. Qed.

Lemma update_event_stores event_id request db event :
  db_get event_id db = Some event →
  ∃ stored,
    db_after (update event_id request db) = db_set event_id stored db
    ∧ same_identity event stored.
Proof.
  intros Hget. unfold update_event. rewrite Hget.
  assert (H2 : same_identity event
                 (assign (up_description request) (λ v, set_description (Some v))
                    (assign (up_title request) set_title event))).
  { apply (assign_identity _ _ (same_identity event)); [intros v e' H; exact H|].
    apply (assign_identity _ _ (same_identity event)); [intros v e' H; exact H|].
    repeat split. }
  destruct (from_option _ _ (up_start_time request)) as [start|]; simpl;
    [|eexists; split; [reflexivity|exact H2]].
  assert (H3 : same_identity event
                 (assign start set_start_time
                    (assign (up_description request) (λ v, set_description (Some v))
                       (assign (up_title request) set_title event)))).
  { apply (assign_identity _ _ (same_identity event)); [intros v e' H; exact H|exact H2]. }
  destruct (from_option _ _ (up_end_time request)) as [finish|]; simpl;
    [|eexists; split; [reflexivity|exact H3]].
  eexists. split; [reflexivity|].
  do 5 (apply (assign_identity _ _ (same_identity event)); [intros v e' H; exact H|]).
  exact H3.
Qed.

(** X14: whatever an update of a stored event does, the event stays
    stored under its id with its [id], [created_at], [reminder_sent] and
    [google_event_id] as before; the other events and the order of the
    store are untouched. *)
Theorem update_event_keeps_identity event_id request db event :
  db_get event_id db = Some event →
  ∃ stored,
    db_get event_id (db_after (update event_id request db)) = Some stored
    ∧ ev_id stored = ev_id event
    ∧ ev_created_at stored = ev_created_at event
    ∧ ev_reminder_sent stored = ev_reminder_sent event
    ∧ ev_google_event_id stored = ev_google_event_id event
    ∧ (∀ k, k ≠ event_id →
         db_get k (db_after (update event_id request db)) = db_get k db)
    ∧ fst <$> db_after (update event_id request db) = fst <$> db.
Proof.
  intros Hget.
  destruct (update_event_stores event_id request db event Hget)
    as (stored & -> & Hid & Hcreated & Hsent & Hgoogle).
  exists stored. split; [apply db_get_set_eq|].
  repeat (split; [assumption|]). split.
  - intros k Hk. apply db_get_set_ne. congruence.
  - exact (db_set_keys _ _ _ _ Hget).
Qed.

(** ** Reminders *)

Variables EMAIL_USER EMAIL_PASSWORD : string.
Variable smtp_deliver : string → pyval → string → string → bool.
Variable email_body : string → Event datetime → string.
Variable py_str_other : pyval → string.

Local Abbreviation send_email :=
  (send_email_notification EMAIL_USER EMAIL_PASSWORD smtp_deliver email_body).
Local Abbreviation reminder_tool := (send_reminder_tool py_str_other).

(** X15: the reminder tool never changes the store.  Without both keys
    it fails; for an id that is not stored it answers 404; for a stored
    event it answers [Reminder sent to <recipient>] and schedules one
    reminder email; and when the email account is not configured, running
    that email task sends nothing, whatever the answer said. *)
Theorem reminder_tool_outcomes (params : dict) db :
  db_after (reminder_tool params db) = db
  ∧ (params !! "event_id" = None ∨ params !! "recipient" = None →
     result_of (reminder_tool params db) = Crashed)
  ∧ (∀ k recipient,
        params !! "event_id" = Some (VStr k) →
        params !! "recipient" = Some recipient →
        match db_get k db with
        | None =>
            result_of (reminder_tool params db) = Raised 404 "Event not found"
            ∧ scheduled (reminder_tool params db) = []
        | Some event =>
            result_of (reminder_tool params db)
            = Done (VDict {[ "success" := VBool true;
                             "message" := VStr ("Reminder sent to "
                                                +:+ py_str py_str_other recipient) ]})
            ∧ scheduled (reminder_tool params db) = [mkTask event recipient "reminder"]
            ∧ (EMAIL_USER = EmptyString ∨ EMAIL_PASSWORD = EmptyString →
               send_email event recipient "reminder" = false)
        end).
Proof.
  unfold send_reminder_tool. split; [|split].
  - destruct (params !! "event_id") as [event_id|]; [|reflexivity].
    destruct (params !! "recipient") as [recipient|]; [|reflexivity].
    destruct (db_find event_id db) as [[[k event]|]|]; reflexivity.
  - intros [-> | H]; [reflexivity|]. rewrite H.
    destruct (params !! "event_id"); reflexivity.
  - intros k recipient -> ->. simpl.
    destruct (db_get k db) as [event|]; simpl; [|split; reflexivity].
    split; [reflexivity|]. split; [reflexivity|].
    unfold send_email_notification. intros [-> | ->]; [reflexivity|].
    simpl. rewrite orb_true_r. reflexivity.
Qed.

(** X16: the reminder endpoint looks the event up under the id of the
    path and ignores the [event_id] of the body; it schedules one email of
    the type the body names, and an email of a type other than reminder,
    invitation and update gets the subject of a cancellation. *)
Theorem reminder_endpoint_uses_path_id event_id request db event :
  db_get event_id db = Some event →
  send_event_reminder event_id request db
  = mkReply (Done (VDict {[ "success" := VBool true ]})) db
      [mkTask event (VStr (er_recipient request)) (er_notification_type request)]
  ∧ (∀ other,
        send_event_reminder event_id
          (mkEmailRequest other (er_recipient request) (er_notification_type request)) db
        = send_event_reminder event_id request db)
  ∧ (er_notification_type request ≠ "reminder" →
     er_notification_type request ≠ "invitation" →
     er_notification_type request ≠ "update" →
     email_subject (er_notification_type request) event
     = "Cancelled: " +:+ ev_title event).
Proof.
  intros Hget. unfold send_event_reminder. rewrite Hget.
  split; [reflexivity|]. split; [reflexivity|].
  intros H1 H2 H3. unfold email_subject.
  rewrite !decide_False by assumption. reflexivity.
Qed.

(** ** Google Calendar *)

(** X17: syncing a stored event changes the store only when Google
    gives an id back: then the id is stored with the event, and a later
    sync of that event updates the Google event of that id instead of
    inserting a new one; otherwise the endpoint answers
    [success: false]. *)
Theorem sync_event_to_google_outcomes event_id db event :
  db_get event_id db = Some event →
  (nonempty (sync event) = false →
   sync_rest event_id db = mkReply (Done sync_failed) db [])
  ∧ (nonempty (sync event) = true →
     result_of (sync_rest event_id db) = Done (VDict (sync_done (sync event)))
     ∧ get_event event_id (db_after (sync_rest event_id db))
       = Done (set_google_event_id (Some (sync event)) event)
     ∧ sync (set_google_event_id (Some (sync event)) event)
       = default EmptyString
           (google_update (sync event) (set_google_event_id (Some (sync event)) event))).
Proof.
  intros Hget. unfold sync_event_to_google. rewrite Hget. split; intros Hn; rewrite Hn.
  - reflexivity.
  - simpl. split; [reflexivity|]. split.
    + unfold get_event. rewrite db_get_set_eq. reflexivity.
    + unfold sync_to_google_calendar at 1. simpl. rewrite Hn. reflexivity.
Qed.

Variable temp_event_of : string → dict → option (Event datetime).
Variable event_dict : Event datetime → pyval.

Local Abbreviation sync_tool :=
  (sync_google_tool google_update google_insert temp_event_of event_dict).

(** X18: the sync tool called without a usable [event_id] and without
    both times answers 400 and stores nothing; a missing key, [None] and
    the empty string all count as absent. *)
Theorem sync_google_tool_needs_times fresh_id (params : dict) db :
  py_truthy (params_get "event_id" params) = false →
  py_truthy (params_get "start_time" params) = false
  ∨ py_truthy (params_get "end_time" params) = false →
  sync_tool fresh_id params db
  = mkReply
      (Raised 400 "calendar_sync_google expects either event_id or start_time and end_time.")
      db []
  ∧ (∀ key, params !! key = None ∨ params !! key = Some VNone
            ∨ params !! key = Some (VStr EmptyString) →
            py_truthy (params_get key params) = false).
Proof.
  intros Hid Htimes. split.
  - unfold sync_google_tool. rewrite Hid.
    destruct Htimes as [-> | ->]; [reflexivity|].
    rewrite orb_true_r. reflexivity.
  - intros key [H|[H|H]]; unfold params_get; rewrite H; reflexivity.
Qed.

(** ** Importing *)

Lemma import_items_app (events : list (Event datetime)) rest acc db :
  import_items ((Some <$> events) ++ rest) acc db
  = import_items rest (acc ++ events)
      (foldl (λ d e, db_set (ev_id e) e d) db events).
Proof.
  revert acc db. induction events as [|e events IH]; intros acc db; simpl.
  - rewrite app_nil_r. reflexivity.
  - rewrite IH, <- app_assoc. reflexivity.
Qed.

Lemma foldl_db_set_stored (events : list (Event datetime)) db e :
  e ∈ events →
  is_Some (db_get (ev_id e) (foldl (λ d e, db_set (ev_id e) e d) db events)).
Proof.
  revert db. induction events as [|e0 events IH] using rev_ind; intros db Hin.
  - apply elem_of_nil in Hin. contradiction.
  - rewrite foldl_app. simpl.
    destruct (decide (ev_id e0 = ev_id e)) as [Heq|Hne].
    + rewrite <- Heq, db_get_set_eq. eauto.
    + rewrite db_get_set_ne by exact Hne.
      apply elem_of_app in Hin as [Hin|Hin]; [exact (IH db Hin)|].
      apply list_elem_of_singleton in Hin. congruence.
Qed.

(** X19: an import whose listing succeeds and whose items all convert
    returns the events in order and stores each; when an item fails to
    convert, the import reports no event at all, yet every event before
    the failing item is stored; when the listing fails, nothing
    changes. *)
Theorem import_failure_keeps_earlier_events
    (events : list (Event datetime)) (rest : list (option (Event datetime))) db :
  import_from_google_calendar (Some (Some <$> events)) db
  = (events, foldl (λ d e, db_set (ev_id e) e d) db events)
  ∧ (fst (import_from_google_calendar (Some ((Some <$> events) ++ None :: rest)) db) = []
     ∧ ∀ e, e ∈ events →
         is_Some (db_get (ev_id e)
           (snd (import_from_google_calendar
                   (Some ((Some <$> events) ++ None :: rest)) db))))
  ∧ import_from_google_calendar None db = ([], db).
Proof.
  unfold import_from_google_calendar. split; [|split; [split|reflexivity]].
  - rewrite <- (app_nil_r (Some <$> events)), import_items_app. reflexivity.
  - rewrite import_items_app. reflexivity.
  - intros e He. rewrite import_items_app. simpl.
    exact (foldl_db_set_stored events db e He).
Qed.

(** ** Invariants of the store *)

Lemma db_find_get (key : pyval) db k event :
  db_find key db = Some (Some (k, event)) → db_get k db = Some event.
Proof.
  destruct key; simpl; try discriminate.
  destruct (db_get s db) eqn:E; simpl; [|discriminate].
  intros [= <- <-]. exact E.
Qed.

Lemma foldl_db_set_invariants (events : list (Event datetime)) db :
  keyed_by_id db → db_ok db →
  keyed_by_id (foldl (λ d e, db_set (ev_id e) e d) db events)
  ∧ db_ok (foldl (λ d e, db_set (ev_id e) e d) db events).
Proof.
  revert db. induction events as [|e events IH]; intros db Hk Hok; simpl; [split; assumption|].
  apply IH; [apply keyed_by_id_set; [reflexivity|exact Hk]|apply db_ok_set; exact Hok].
Qed.

Lemma import_items_invariants (items : list (option (Event datetime))) acc db :
  keyed_by_id db → db_ok db →
  keyed_by_id (snd (import_items items acc db))
  ∧ db_ok (snd (import_items items acc db)).
Proof.
  revert acc db. induction items as [|[e|] items IH]; intros acc db Hk Hok; simpl;
    [split; assumption| |split; assumption].
  apply IH; [apply keyed_by_id_set; [reflexivity|exact Hk]|apply db_ok_set; exact Hok].
Qed.

(** X20: every request that writes to the store keeps its two
    invariants: the keys are distinct, and each event is stored under its
    own id. *)
Theorem writers_keep_store_invariants db :
  keyed_by_id db → db_ok db →
  (∀ event_id now request,
      keyed_by_id (db_after (create event_id now request db))
      ∧ db_ok (db_after (create event_id now request db)))
  ∧ (∀ event_id request,
        keyed_by_id (db_after (update event_id request db))
        ∧ db_ok (db_after (update event_id request db)))
  ∧ (∀ event_id,
        keyed_by_id (db_after (delete_event event_id db))
        ∧ db_ok (db_after (delete_event event_id db)))
  ∧ (∀ event_id,
        keyed_by_id (db_after (sync_rest event_id db))
        ∧ db_ok (db_after (sync_rest event_id db)))
  ∧ (∀ fresh_id params,
        keyed_by_id (db_after (sync_tool fresh_id params db))
        ∧ db_ok (db_after (sync_tool fresh_id params db)))
  ∧ (∀ fetched,
        keyed_by_id (snd (import_from_google_calendar fetched db))
        ∧ db_ok (snd (import_from_google_calendar fetched db))).
Proof.
  intros Hk Hok.
  split; [|split; [|split; [|split; [|split]]]].
  - intros event_id now request. unfold create_event.
    destruct (parse (cr_start_time request)); [|split; assumption].
    destruct (parse (cr_end_time request)); [|split; assumption].
    destruct (nonempty _); simpl.
    + split; [apply keyed_by_id_set; [reflexivity|]; apply keyed_by_id_set;
              [reflexivity|exact Hk]
             |do 2 apply db_ok_set; exact Hok].
    + split; [apply keyed_by_id_set; [reflexivity|exact Hk]|apply db_ok_set; exact Hok].
  - intros event_id request.
    destruct (db_get event_id db) as [event|] eqn:Hget.
    + destruct (update_event_stores event_id request db event Hget)
        as (stored & -> & Hid & _).
      split; [|apply db_ok_set; exact Hok].
      apply keyed_by_id_set; [|exact Hk]. rewrite Hid. exact (Hk _ _ Hget).
    + unfold update_event. rewrite Hget. split; assumption.
  - intros event_id. unfold delete_event.
    destruct (db_get event_id db); simpl; [|split; assumption].
    split; [apply keyed_by_id_del; exact Hk|apply db_ok_del; exact Hok].
  - intros event_id. unfold sync_event_to_google.
    destruct (db_get event_id db) as [event|] eqn:Hget; [|split; assumption].
    destruct (nonempty _); simpl; [|split; assumption].
    split; [|apply db_ok_set; exact Hok].
    apply keyed_by_id_set; [|exact Hk]. exact (Hk _ _ Hget).
  - intros fresh_id params. unfold sync_google_tool.
    destruct (py_truthy (params_get "event_id" params)).
    + destruct (db_find _ db) as [[[k event]|]|] eqn:Hfind; [|split; assumption|split; assumption].
      destruct (nonempty _); simpl; [|split; assumption].
      split; [|apply db_ok_set; exact Hok].
      apply keyed_by_id_set; [|exact Hk].
      exact (Hk _ _ (db_find_get _ _ _ _ Hfind)).
    + destruct (_ || _); [split; assumption|].
      destruct (temp_event_of fresh_id params) as [temp_event|]; [|split; assumption].
      destruct (nonempty _); simpl; [|split; assumption].
      split; [apply keyed_by_id_set; [reflexivity|exact Hk]|apply db_ok_set; exact Hok].
  - intros [items|]; simpl; [|split; assumption].
    apply import_items_invariants; assumption.
Qed.

End StoreProperties.

(** * The agent and the server together *)

(** ** The alias table and the dispatcher *)

Lemma tool_name_map_entries (tool_name id : string) :
  TOOL_NAME_MAP !! tool_name = Some id →
  id = "calendar_create_event" ∨ id = "calendar_send_reminder"
  ∨ id = "calendar_sync_google" ∨ id = "calendar_import_google".
Proof.
  intros H. apply elem_of_list_to_map_2 in H.
  repeat (apply elem_of_cons in H as [E|H]; [injection E as _ <-; auto 10|]).
  apply elem_of_nil in H. contradiction.
Qed.

(** X7: every name of the alias table is mapped to an id that is mapped
    to itself, and the dispatcher of the MCP server hands that id to one
    of its four handlers. *)
Theorem aliases_reach_a_handler
    (h1 h2 h3 h4 : dict → McpServer.endpoint_result)
    (tool_name id : string) (params : dict) :
  TOOL_NAME_MAP !! tool_name = Some id →
  mcp_tool_id_of tool_name = id
  ∧ mcp_tool_id_of id = id
  ∧ McpServer.call_tool h1 h2 h3 h4 id params
    ∈ [h1 params; h2 params; h3 params; h4 params].
Proof.
  intros H. split; [unfold mcp_tool_id_of; rewrite H; reflexivity|].
  destruct (tool_name_map_entries tool_name id H) as [-> | [-> | [-> | ->]]];
    (split; [reflexivity|]); unfold McpServer.call_tool; simpl;
    rewrite !elem_of_cons; auto 10.
Qed.

Section EndToEnd.
Import CalendarServer.
Context {datetime : Type}.
Variable MCP_SERVER_URL : string.
Variable requests_post : string → pyval → result response.
Variable tool_input_error : pyval → string.
Variables h1 h3 h4 : dict → McpServer.endpoint_result.
Variable json_dumps : pyval → string.
Variable unprocessable : pyval → response.
Variable py_str_other : pyval → string.

(** X21: a reminder asked for through the proxy tool under any alias of
    the reminder tool, delivered to the dispatcher: for an event that is
    not stored, the model sees the failure payload that wraps the
    server's 404 response; for a stored event it sees the server's
    success payload as it is. *)
Theorem reminder_through_the_agent
    (db : events_db datetime) (c : ToolCall) (d params : dict)
    (tool_name k : string) (recipient : pyval) :
  tc_name c = Some mcp_calendar_tool_name →
  call_args c = VDict d →
  d !! "tool_name" = Some (VStr tool_name) →
  TOOL_NAME_MAP !! tool_name = Some "calendar_send_reminder" →
  normalize (delete "tool_name" d) = params →
  params !! "event_id" = Some (VStr k) →
  params !! "recipient" = Some recipient →
  requests_post (MCP_SERVER_URL +:+ "/mcp/call") (call_body "calendar_send_reminder" params)
  = Ok (McpServer.post_mcp_call h1
          (λ p, as_endpoint_result (result_of (send_reminder_tool py_str_other p db)))
          h3 h4 json_dumps unprocessable
          (call_body "calendar_send_reminder" params)) →
  call_output MCP_SERVER_URL requests_post tool_input_error c
  = match db_get k db with
    | None =>
        failure ("MCP server returned 404: "
                 +:+ json_dumps (VDict {[ "detail" := VStr "Event not found" ]}))
    | Some _ =>
        VDict {[ "success" := VBool true;
                 "message" := VStr ("Reminder sent to " +:+ py_str py_str_other recipient) ]}
    end.
Proof.
  intros Hname Hargs Htool Hmap Hparams Hid Hrecipient Hpost.
  rewrite (call_output_post _ _ _ c d tool_name Hname Hargs Htool).
  unfold mcp_tool_id_of. rewrite Hmap. simpl default. rewrite Hparams, Hpost.
  rewrite post_mcp_call_body.
  change (McpServer.call_tool h1 _ h3 h4 "calendar_send_reminder" params)
    with (as_endpoint_result (result_of (send_reminder_tool py_str_other params db))).
  unfold send_reminder_tool. rewrite Hid, Hrecipient. simpl.
  destruct (db_get k db); reflexivity.
Qed.

End EndToEnd.

(** * The further properties on concrete runs *)

Lemma run_fails_only_by_provider_or_budget_witness :
  Exception "connection refused" = recursion_error
  ∨ ∃ history,
      messages Demo.seed `prefix_of` history
      ∧ Demo.llm_down history = Raise (Exception "connection refused").
Proof.
  apply (run_fails_only_by_provider_or_budget
           Demo.url Demo.server_post Demo.input_error (Some Demo.llm_down)
           Demo.llm_down 25%nat Demo.seed (Exception "connection refused")).
  - reflexivity.
  - reflexivity.
Defined.

Lemma history_doubles_every_round_witness :
  ∃ s',
    stops_at_call Demo.url Demo.server_post Demo.input_error Demo.llm_two_rounds
      3 Demo.seed s'
    ∧ (2 ^ (3 - 1) * (length (messages Demo.seed) + 3) ≤ length (messages s') + 2)%nat.
Proof.
  destruct two_rounds_stop_at_third_call as [s' Hstops].
  exists s'. split; [exact Hstops|].
  exact (history_doubles_every_round
           Demo.url Demo.server_post Demo.input_error Demo.llm_two_rounds
           3%nat Demo.seed s' Hstops).
Defined.

(** The demo run ends with fourteen messages, of which the model and the
    tools produced six. *)
Example two_rounds_history_length :
  (λ r, match r with Ok s => Some (length (messages s)) | Raise _ => None end)
    (graph_run Demo.url Demo.server_post Demo.input_error (Some Demo.llm_two_rounds)
       25 agent Demo.seed)
  = Some 14%nat.
Proof. vm_compute. reflexivity. Qed.


Lemma non_json_response_is_quoted_cut_witness :
  ∃ shown,
    handle_post (Ok (Response 200 "<html>Bad gateway</html>" None))
    = Ok (failure ("MCP server returned non-JSON response: " +:+ shown))
    ∧ String.length shown
      = Nat.min 200 (String.length (text (Response 200 "<html>Bad gateway</html>" None)))
    ∧ String.prefix shown (text (Response 200 "<html>Bad gateway</html>" None)) = true.
Proof.
  apply (non_json_response_is_quoted_cut (Response 200 "<html>Bad gateway</html>" None)).
  - reflexivity.
  - reflexivity.
Defined.

Lemma aliases_reach_a_handler_witness :
  mcp_tool_id_of "sync_google_calendar_tool" = "calendar_sync_google"
  ∧ mcp_tool_id_of "calendar_sync_google" = "calendar_sync_google"
  ∧ McpServer.call_tool Demo.handler Demo.handler Demo.handler Demo.handler
      "calendar_sync_google" Demo.flat_kwargs
    ∈ [Demo.handler Demo.flat_kwargs; Demo.handler Demo.flat_kwargs;
       Demo.handler Demo.flat_kwargs; Demo.handler Demo.flat_kwargs].
Proof.
  apply (aliases_reach_a_handler Demo.handler Demo.handler Demo.handler Demo.handler
           "sync_google_calendar_tool" "calendar_sync_google" Demo.flat_kwargs).
  reflexivity.
Defined.

(** The trailing [Z] of a UTC time becomes an offset. *)
Example replace_Z_utc :
  CalendarServer.replace_Z "2025-01-02T15:00:00Z" = "2025-01-02T15:00:00+00:00".
Proof. reflexivity. Qed.

Section StoreRuns.
Import CalendarServer.

Local Abbreviation demo_create :=
  (create_event DemoStore.fromisoformat DemoStore.strptime
     DemoStore.google_update DemoStore.google_insert).
Local Abbreviation demo_update :=
  (update_event DemoStore.fromisoformat DemoStore.strptime).
Local Abbreviation demo_parse :=
  (parse_datetime DemoStore.fromisoformat DemoStore.strptime).


Lemma create_event_bad_time_witness :
  demo_create "ev-3" "2025-01-01T09:00:00" DemoStore.bad_request DemoStore.db
  = mkReply Crashed DemoStore.db [].
Proof.
  apply (create_event_bad_time
           DemoStore.fromisoformat DemoStore.strptime
           DemoStore.google_update DemoStore.google_insert
           "ev-3" "2025-01-01T09:00:00" DemoStore.bad_request DemoStore.db).
  left. reflexivity.
Defined.

Lemma empty_update_still_notifies_witness :
  demo_update "ev-1" empty_update DemoStore.db
  = mkReply (Done DemoStore.standup) DemoStore.db (notify_all DemoStore.standup "update")
  ∧ (ev_notify_attendees DemoStore.standup = true →
     scheduled (demo_update "ev-1" empty_update DemoStore.db)
     = (λ a, mkTask DemoStore.standup (VStr a) "update")
         <$> ev_attendees DemoStore.standup).
Proof.
  apply (empty_update_still_notifies
           DemoStore.fromisoformat DemoStore.strptime
           "ev-1" DemoStore.db DemoStore.standup).
  reflexivity.
Defined.

Lemma update_event_bad_start_keeps_title_witness :
  result_of (demo_update "ev-1" DemoStore.bad_update DemoStore.db) = Crashed
  ∧ scheduled (demo_update "ev-1" DemoStore.bad_update DemoStore.db) = []
  ∧ ∃ stored,
      db_get "ev-1" (db_after (demo_update "ev-1" DemoStore.bad_update DemoStore.db))
      = Some stored
      ∧ (∀ t, up_title DemoStore.bad_update = Some t → ev_title stored = t)
      ∧ (∀ d, up_description DemoStore.bad_update = Some d → ev_description stored = Some d)
      ∧ ev_start_time stored = ev_start_time DemoStore.standup.
Proof.
  apply (update_event_bad_start_keeps_title
           DemoStore.fromisoformat DemoStore.strptime
           "ev-1" DemoStore.bad_update DemoStore.db DemoStore.standup "tomorrow").
  - reflexivity.
  - reflexivity.
  - reflexivity.
Defined.

(** After the failed update the event is stored under its new title. *)
Example bad_update_stored_title :
  ev_title <$> db_get "ev-1"
                 (db_after (demo_update "ev-1" DemoStore.bad_update DemoStore.db))
  = Some "Daily".
Proof. reflexivity. Qed.

Lemma update_event_keeps_identity_witness :
  ∃ stored,
    db_get "ev-1" (db_after (demo_update "ev-1" DemoStore.bad_update DemoStore.db))
    = Some stored
    ∧ ev_id stored = ev_id DemoStore.standup
    ∧ ev_created_at stored = ev_created_at DemoStore.standup
    ∧ ev_reminder_sent stored = ev_reminder_sent DemoStore.standup
    ∧ ev_google_event_id stored = ev_google_event_id DemoStore.standup
    ∧ (∀ k, k ≠ "ev-1" →
         db_get k (db_after (demo_update "ev-1" DemoStore.bad_update DemoStore.db))
         = db_get k DemoStore.db)
    ∧ fst <$> db_after (demo_update "ev-1" DemoStore.bad_update DemoStore.db)
      = fst <$> DemoStore.db.
Proof.
  apply (update_event_keeps_identity
           DemoStore.fromisoformat DemoStore.strptime
           "ev-1" DemoStore.bad_update DemoStore.db DemoStore.standup).
  reflexivity.
Defined.

Lemma reminder_endpoint_uses_path_id_witness :
  send_event_reminder "ev-1" DemoStore.odd_reminder DemoStore.db
  = mkReply (Done (VDict {[ "success" := VBool true ]})) DemoStore.db
      [mkTask DemoStore.standup (VStr (er_recipient DemoStore.odd_reminder))
         (er_notification_type DemoStore.odd_reminder)]
  ∧ (∀ other,
        send_event_reminder "ev-1"
          (mkEmailRequest other (er_recipient DemoStore.odd_reminder)
             (er_notification_type DemoStore.odd_reminder)) DemoStore.db
        = send_event_reminder "ev-1" DemoStore.odd_reminder DemoStore.db)
  ∧ (er_notification_type DemoStore.odd_reminder ≠ "reminder" →
     er_notification_type DemoStore.odd_reminder ≠ "invitation" →
     er_notification_type DemoStore.odd_reminder ≠ "update" →
     email_subject (er_notification_type DemoStore.odd_reminder) DemoStore.standup
     = "Cancelled: " +:+ ev_title DemoStore.standup).
Proof.
  apply (reminder_endpoint_uses_path_id "ev-1" DemoStore.odd_reminder
           DemoStore.db DemoStore.standup).
  reflexivity.
Defined.

Lemma sync_event_to_google_outcomes_witness :
  result_of (sync_event_to_google DemoStore.google_update DemoStore.google_insert
               "ev-1" DemoStore.db)
  = Done (VDict (sync_done "g-1"))
  ∧ get_event "ev-1"
      (db_after (sync_event_to_google DemoStore.google_update DemoStore.google_insert
                   "ev-1" DemoStore.db))
    = Done (set_google_event_id (Some "g-1") DemoStore.standup)
  ∧ sync_event_to_google DemoStore.google_down_update DemoStore.google_down_insert
      "ev-1" DemoStore.db
    = mkReply (Done sync_failed) DemoStore.db [].
Proof.
  pose proof (sync_event_to_google_outcomes
                DemoStore.google_update DemoStore.google_insert
                "ev-1" DemoStore.db DemoStore.standup eq_refl) as [_ Hup].
  pose proof (sync_event_to_google_outcomes
                DemoStore.google_down_update DemoStore.google_down_insert
                "ev-1" DemoStore.db DemoStore.standup eq_refl) as [Hdown _].
  destruct (Hup eq_refl) as (Hresult & Hget & _).
  split; [exact Hresult|]. split; [exact Hget|]. exact (Hdown eq_refl).
Defined.

Lemma sync_google_tool_needs_times_witness :
  sync_google_tool DemoStore.google_update DemoStore.google_insert
    DemoStore.temp_event_of DemoStore.event_dict "ev-3"
    {[ "event_id" := VStr EmptyString; "title" := VStr "Lunch" ]} DemoStore.db
  = mkReply
      (Raised 400 "calendar_sync_google expects either event_id or start_time and end_time.")
      DemoStore.db [].
Proof.
  apply (sync_google_tool_needs_times
           DemoStore.google_update DemoStore.google_insert
           DemoStore.temp_event_of DemoStore.event_dict "ev-3"
           {[ "event_id" := VStr EmptyString; "title" := VStr "Lunch" ]} DemoStore.db).
  - reflexivity.
  - left. reflexivity.
Defined.

Lemma demo_db_invariants : keyed_by_id DemoStore.db ∧ db_ok DemoStore.db.
Proof.
  split.
  - intros k e. unfold DemoStore.db. simpl.
    destruct (decide ("ev-1" = k)) as [<-|_]; [intros [= <-]; reflexivity|].
    destruct (decide ("ev-2" = k)) as [<-|_]; [intros [= <-]; reflexivity|discriminate].
  - unfold db_ok. simpl. apply (bool_decide_unpack _). vm_compute. exact I.
Defined.

Lemma writers_keep_store_invariants_witness :
  keyed_by_id (db_after (delete_event "ev-1" DemoStore.db))
  ∧ db_ok (db_after (delete_event "ev-1" DemoStore.db)).
Proof.
  exact (proj1 (proj2 (proj2
           (writers_keep_store_invariants
              DemoStore.fromisoformat DemoStore.strptime
              DemoStore.google_update DemoStore.google_insert
              DemoStore.temp_event_of DemoStore.event_dict DemoStore.db
              (proj1 demo_db_invariants) (proj2 demo_db_invariants)))) "ev-1").
Defined.

Lemma reminder_through_the_agent_witness :
  call_output Demo.url DemoStore.server_post Demo.input_error DemoStore.reminder_call
  = failure ("MCP server returned 404: "
             +:+ Demo.json_dumps (VDict {[ "detail" := VStr "Event not found" ]})).
Proof.
  apply (reminder_through_the_agent
           Demo.url DemoStore.server_post Demo.input_error
           Demo.handler Demo.handler Demo.handler Demo.json_dumps Demo.unprocessable
           DemoStore.py_str_other DemoStore.db DemoStore.reminder_call
           (<["tool_name" := VStr "send_calendar_reminder_tool"]> DemoStore.reminder_params)
           DemoStore.reminder_params "send_calendar_reminder_tool" "ev-9"
           (VStr "ann@example.com")).
  - reflexivity.
  - reflexivity.
  - reflexivity.
  - reflexivity.
  - vm_compute. reflexivity.
  - reflexivity.
  - reflexivity.
  - reflexivity.
Defined.

End StoreRuns.
